(** * RAG pipeline of projeto-tcc: chunker, ingestion, vector index, context

    Shallow embedding of
      - [src/server/src/core/config.py]                 (the RAG settings),
      - [src/server/src/services/document_processor.py] (chunk_text,
        get_processor_for_file, process_document),
      - [src/server/src/services/vector_store.py]       (VectorStoreService),
      - [src/server/src/services/ai_service.py]         (_get_relevant_context).

    Python [str] values are lists of Unicode code points, Python [int]
    values are [Z], dictionaries are [gmap]s, and a call that can raise
    returns an [outcome].  Loops that the source writes as [while] take
    an explicit amount of fuel; running out of fuel is [None]. *)

From Stdlib Require Import ZArith NArith List String Ascii Lia Bool QArith.
From Stdlib Require Import DecimalString DecimalZ.
From stdpp Require Import base option list gmap.

Open Scope Z_scope.
Open Scope list_scope.

(* ===================================================================== *)
(** ** Python strings *)
(* ===================================================================== *)

(** A [str] is the list of its code points. *)
Abbreviation str := (list N).

(** An ASCII literal as a [str].  Literals of this file hold no escape
    sequences: every character stands for itself. *)
Definition lit (s : string) : str :=
  map N_of_ascii (list_ascii_of_string s).

(** [str.isspace] on one code point (the table of CPython's
    [_PyUnicode_IsWhitespace]). *)
Definition isspace (c : N) : bool :=
  ((9 <=? c) && (c <=? 13) || (28 <=? c) && (c <=? 32)
   || (c =? 133) || (c =? 160) || (c =? 5760)
   || (8192 <=? c) && (c <=? 8202)
   || (c =? 8232) || (c =? 8233) || (c =? 8239) || (c =? 8287)
   || (c =? 12288))%N.

Fixpoint lstrip_ws (s : str) : str :=
  match s with
  | c :: s' => if isspace c then lstrip_ws s' else s
  | [] => []
  end.

Definition rstrip_ws (s : str) : str := rev (lstrip_ws (rev s)).

(** [s.strip()] *)
Definition strip (s : str) : str := rstrip_ws (lstrip_ws s).

(** [s.lstrip(ch)] for a one-character argument. *)
Fixpoint lstrip_char (ch : N) (s : str) : str :=
  match s with
  | c :: s' => if (c =? ch)%N then lstrip_char ch s' else s
  | [] => []
  end.

(** [s.split()]: the maximal runs of non-whitespace characters.  [cur] is
    the run being read, in reverse. *)
Fixpoint split_ws_aux (cur : str) (s : str) : list str :=
  match s with
  | [] => match cur with [] => [] | _ => [rev cur] end
  | c :: s' =>
      if isspace c
      then match cur with
           | [] => split_ws_aux [] s'
           | _ => rev cur :: split_ws_aux [] s'
           end
      else split_ws_aux (c :: cur) s'
  end.

Definition split_ws (s : str) : list str := split_ws_aux [] s.

(** [len(s)] *)
Definition len {A} (s : list A) : Z := Z.of_nat (length s).

(** [s[i]] with Python's negative indices; [None] is IndexError. *)
Definition py_index {A} (s : list A) (i : Z) : option A :=
  if (0 <=? i) && (i <? len s) then s !! Z.to_nat i
  else if (- len s <=? i) && (i <? 0) then s !! Z.to_nat (len s + i)
  else None.

(** A slice bound as CPython's [PySlice_AdjustIndices] clamps it. *)
Definition slice_bound {A} (s : list A) (i : Z) : Z :=
  if i <? 0 then Z.max (i + len s) 0 else Z.min i (len s).

(** [s[a:b]] *)
Definition py_slice {A} (s : list A) (a b : Z) : list A :=
  let lo := slice_bound s a in
  let hi := slice_bound s b in
  take (Z.to_nat (hi - lo)) (drop (Z.to_nat lo) s).

(** [s[:n]] for a literal bound [n >= 0]. *)
Definition py_prefix {A} (s : list A) (n : nat) : list A := take n s.

(** [c in t] for a one-character [c]. *)
Definition char_in (c : N) (t : str) : bool :=
  existsb (N.eqb c) t.

Fixpoint startswith (p s : str) : bool :=
  match p, s with
  | [], _ => true
  | a :: p', b :: s' => (a =? b)%N && startswith p' s'
  | _ :: _, [] => false
  end.

(** [p in s] for strings: [p] occurs in [s] as a contiguous run. *)
Fixpoint contains (p s : str) : bool :=
  startswith p s ||
  match s with
  | [] => false
  | _ :: s' => contains p s'
  end.

(** [sep.join(parts)] *)
Fixpoint join (sep : str) (parts : list str) : str :=
  match parts with
  | [] => []
  | [p] => p
  | p :: rest => p ++ sep ++ join sep rest
  end.

(** [str(n)] for an [int]: the decimal digits, after a minus sign when
    [n] is negative. *)
Definition str_of_int (n : Z) : str :=
  lit (NilEmpty.string_of_int (Z.to_int n)).

(* ===================================================================== *)
(** ** Exceptions *)
(* ===================================================================== *)

(** An exception that derives from [Exception], which is what the
    [except Exception] clauses of the source catch: its class and
    [str(e)].  Interpreter exits and task cancellation are not modelled. *)
Record exn := mk_exn { exn_class : str; exn_msg : str }.

Inductive outcome (A : Type) : Type :=
| Return (a : A)
| Raise (e : exn).
Arguments Return {A} a.
Arguments Raise {A} e.

(** A computation that may also run out of fuel ([None]). *)
Definition run (A : Type) : Type := option (outcome A).

Definition ret {A} (a : A) : run A := Some (Return a).
Definition raise {A} (e : exn) : run A := Some (Raise e).
Definition lift {A} (o : outcome A) : run A := Some o.

Definition bind {A B} (m : run A) (k : A -> run B) : run B :=
  match m with
  | Some (Return a) => k a
  | Some (Raise e) => Some (Raise e)
  | None => None
  end.

Notation "'do' x <- m ; k" := (bind m (fun x => k))
  (at level 10, x name, m at level 100, k at level 200).

(** [try: body  except Exception as e: handler(e)] *)
Definition try_except {A} (body : run A) (handler : exn -> run A) : run A :=
  match body with
  | Some (Return a) => Some (Return a)
  | Some (Raise e) => handler e
  | None => None
  end.

Definition IndexError : exn :=
  mk_exn (lit "IndexError") (lit "string index out of range").

(* ===================================================================== *)
(** ** config.py: the settings the RAG pipeline reads *)
(* ===================================================================== *)

(** The fields of [Settings] the pipeline reads, and [settings] with the
    values config.py gives them. *)
Record Settings := {
  CHUNK_SIZE : Z;
  CHUNK_OVERLAP : Z;
  TOP_K_RETRIEVAL : Z
}.

Definition settings : Settings :=
  {| CHUNK_SIZE := 1000; CHUNK_OVERLAP := 200; TOP_K_RETRIEVAL := 5 |}.

(* ===================================================================== *)
(** ** document_processor.py: DocumentProcessor.chunk_text *)
(* ===================================================================== *)

(** The characters of the literal ['.!?\\n'] of line 68: full stop,
    exclamation mark, question mark, backslash, and the letter n. *)
Definition sentence_end : str := [46; 33; 63; 92; 110]%N.

(** The [for i in range(end, lo, -1)] loop of lines 67-70, started at [i]
    with [n] values of the range left.  [Return (Some e)] is the [break]
    with [end = e]; [Return None] is the range running out. *)
Fixpoint scan_back (text : str) (i : Z) (n : nat) : outcome (option Z) :=
  match n with
  | O => Return None
  | S n' =>
      match py_index text i with
      | None => Raise IndexError
      | Some c =>
          if char_in c sentence_end then Return (Some (i + 1))
          else scan_back text (i - 1) n'
      end
  end.

(** Lines 62-70: the end of the window that starts at [start]. *)
Definition window_end (text : str) (chunk_size start : Z) : outcome Z :=
  let end_ := start + chunk_size in
  if end_ <? len text then
    let lo := Z.max (start + chunk_size - 100) start in
    match scan_back text end_ (Z.to_nat (end_ - lo)) with
    | Return (Some e) => Return e
    | Return None => Return end_
    | Raise e => Raise e
    end
  else Return end_.

(** Lines 76-80: the next value of [start]. *)
Definition next_start (end_ overlap : Z) : Z :=
  let start := end_ - overlap in
  if start >=? end_ then end_ else start.

(** The [while start < len(text)] loop of lines 61-82.  [None]: the fuel
    ran out before the loop condition became false. *)
Fixpoint chunk_loop (fuel : nat) (text : str) (chunk_size overlap : Z)
    (start : Z) (chunks : list str) : run (list str) :=
  match fuel with
  | O => None
  | S fuel' =>
      if start <? len text then
        match window_end text chunk_size start with
        | Raise e => Some (Raise e)
        | Return end_ =>
            let chunk := strip (py_slice text start end_) in
            let chunks' :=
              match chunk with [] => chunks | _ => chunks ++ [chunk] end in
            chunk_loop fuel' text chunk_size overlap
                       (next_start end_ overlap) chunks'
        end
      else Some (Return chunks)
  end.

(** [chunk_text(text, chunk_size=None, overlap=None)] *)
Definition chunk_text (fuel : nat) (text : str)
    (chunk_size overlap : option Z) : run (list str) :=
  let chunk_size := default (CHUNK_SIZE settings) chunk_size in
  let overlap := default (CHUNK_OVERLAP settings) overlap in
  if len text <=? chunk_size then Some (Return [text])
  else chunk_loop fuel text chunk_size overlap 0 [].

(* ===================================================================== *)
(** ** document_processor.py: DocumentProcessorService *)
(* ===================================================================== *)

(** The values a metadata dictionary holds. *)
Inductive pyval :=
| PNone
| PBool (b : bool)
| PInt (n : Z)
| PStr (s : str).

#[global] Instance pyval_eq_dec : EqDecision pyval.
Proof. solve_decision. Defined.

(** A [pathlib.Path]: [str(p)], [p.name] and [p.suffix]. *)
Record Path := { path_str : str; name : str; suffix : str }.

Inductive DocumentProcessor :=
| PDFProcessor
| DOCXProcessor
| TXTProcessor
| MarkdownProcessor.

Definition get_supported_extensions (p : DocumentProcessor) : list str :=
  match p with
  | PDFProcessor => [lit "pdf"]
  | DOCXProcessor => [lit "docx"]
  | TXTProcessor => [lit "txt"]
  | MarkdownProcessor => [lit "md"; lit "markdown"]
  end.

(** [self.processors], in insertion order. *)
Definition processors : list (str * DocumentProcessor) :=
  [ (lit "pdf", PDFProcessor); (lit "docx", DOCXProcessor);
    (lit "txt", TXTProcessor); (lit "md", MarkdownProcessor) ].

(** What lies outside the repository: the file system, the extraction
    libraries behind [extract_text], and Unicode case mapping. *)
Record World := {
  (** [file_path.exists()] *)
  exists_ : Path -> outcome bool;
  (** [s.lower()] *)
  lower : str -> str;
  (** [await processor.extract_text(file_path)] *)
  extract_text : DocumentProcessor -> Path -> outcome str;
  (** [file_path.stat().st_size] *)
  st_size : Path -> outcome Z;
  (** [str(Path.ctime(file_path))] *)
  ctime : Path -> outcome str
}.

(** Line 273 reads the attribute [ctime] of the class [Path] that line 9
    imports from [pathlib]; that class has no such attribute, so under
    CPython the lookup raises this error, whatever the file. *)
Definition Path_ctime_error : exn :=
  mk_exn (lit "AttributeError")
         (lit "type object 'Path' has no attribute 'ctime'").

(** A world whose [Path] is that of [pathlib]. *)
Definition pathlib (w : World) : Prop :=
  ∀ file_path, ctime w file_path = Raise Path_ctime_error.

(** [file_path.suffix.lower().lstrip('.')] *)
Definition extension_of (w : World) (file_path : Path) : str :=
  lstrip_char 46%N (lower w (suffix file_path)).

Definition get_processor_for_file (w : World) (file_path : Path)
  : option DocumentProcessor :=
  let extension := extension_of w file_path in
  find (fun processor =>
          bool_decide (extension ∈ get_supported_extensions processor))
       (map snd processors).

(** The dictionary [process_document] returns; [error = None] is a
    dictionary without the key ['error']. *)
Record ProcessResult := {
  text : str;
  chunks : list str;
  metadata : gmap str pyval;
  success : bool;
  error : option str
}.

(** [{**base, **other}]: the keys of [other] are written last. *)
Definition dict_overlay (base other : gmap str pyval) : gmap str pyval :=
  other ∪ base.

(** [metadata or {}] *)
Definition or_empty (metadata : option (gmap str pyval)) : gmap str pyval :=
  match metadata with
  | Some d => if bool_decide (d = ∅) then ∅ else d
  | None => ∅
  end.

Definition FileNotFoundError (msg : str) : exn :=
  mk_exn (lit "FileNotFoundError") msg.
Definition ValueError (msg : str) : exn := mk_exn (lit "ValueError") msg.

(** The message of line 249; 227 is the letter a with a tilde. *)
Definition msg_not_found : str :=
  lit "Arquivo n" ++ [227%N] ++ lit "o encontrado: ".
(** The message of line 254. *)
Definition msg_unsupported : str :=
  lit "Tipo de arquivo n" ++ [227%N] ++ lit "o suportado: ".
(** The message of line 261; 237 is the letter i with an acute accent. *)
Definition msg_no_text : str :=
  lit "Nenhum texto extra" ++ [237%N] ++ lit "do do documento".
(** The unsupported-format text the error message is searched for. *)
Definition nao_suportado : str := lit "n" ++ [227%N] ++ lit "o suportado".

(** Lines 267-275: the [file_metadata] literal, key by key. *)
Definition file_facts (w : World) (file_path : Path) (file_size : Z)
    (extracted_text : str) (chunks : list str) (processed_at : str)
  : gmap str pyval :=
  <[lit "processed_at" := PStr processed_at]>
  (<[lit "chunk_count" := PInt (len chunks)]>
  (<[lit "word_count" := PInt (len (split_ws extracted_text))]>
  (<[lit "file_type" := PStr (extension_of w file_path)]>
  (<[lit "file_size" := PInt file_size]>
  (<[lit "file_name" := PStr (name file_path)]> ∅))))).

(** Lines 247-289: the body of the [try]. *)
Definition process_body (fuel : nat) (w : World) (file_path : Path)
    (metadata : option (gmap str pyval)) : run ProcessResult :=
  do present <- lift (exists_ w file_path);
  if negb present
  then raise (FileNotFoundError (msg_not_found ++ path_str file_path))
  else
  match get_processor_for_file w file_path with
  | None => raise (ValueError (msg_unsupported ++ suffix file_path))
  | Some processor =>
      do extracted_text <- lift (extract_text w processor file_path);
      match strip extracted_text with
      | [] => raise (ValueError msg_no_text)
      | _ :: _ =>
          do chunks <- chunk_text fuel extracted_text None None;
          do file_size <- lift (st_size w file_path);
          do processed_at <- lift (ctime w file_path);
          let file_metadata :=
            dict_overlay
              (file_facts w file_path file_size extracted_text chunks
                          processed_at)
              (or_empty metadata) in
          ret {| text := extracted_text;
                 chunks := chunks;
                 metadata := file_metadata;
                 success := true;
                 error := None |}
      end
  end.

(** Lines 291-299: the [except Exception as e] handler. *)
Definition failure_result (metadata : option (gmap str pyval)) (e : exn)
  : ProcessResult :=
  {| text := [];
     chunks := [];
     metadata := or_empty metadata;
     success := false;
     error := Some (exn_msg e) |}.

Definition process_document (fuel : nat) (w : World) (file_path : Path)
    (metadata : option (gmap str pyval)) : run ProcessResult :=
  try_except (process_body fuel w file_path metadata)
             (fun e => ret (failure_result metadata e)).

(* ===================================================================== *)
(** ** vector_store.py: VectorStoreService over a ChromaDB client *)
(* ===================================================================== *)

(** One record of a collection: id, document text, metadata. *)
Record Embedding := {
  emb_id : str;
  emb_document : str;
  emb_metadata : gmap str pyval
}.

(** The dictionary [collection.query] returns; a field that is [None]
    in Python is [None] here. *)
Record QueryResult := {
  documents : option (list (list str));
  metadatas : option (list (list (gmap str pyval)));
  distances : option (list (list Q));
  ids : option (list (list str))
}.

(** The ChromaDB calls the service makes through a collection handle.
    Each acts on the records of that one collection. *)
Record Chroma := {
  (** why [client.get_or_create_collection(name)] refuses to create *)
  create_error : str -> option exn;
  (** [collection.add(documents=, metadatas=, ids=)] *)
  collection_add : list Embedding -> list str -> list (gmap str pyval) ->
                   list str -> outcome (list Embedding);
  (** [collection.query(query_texts=[q], n_results=, where=)] *)
  collection_query : list Embedding -> str -> Z ->
                     option (gmap str pyval) -> outcome QueryResult;
  (** [collection.get(where=)['ids']] *)
  collection_get : list Embedding -> gmap str pyval -> outcome (list str);
  (** [collection.delete(ids=)] *)
  collection_delete : list Embedding -> list str -> outcome (list Embedding)
}.

(** [self.client] is [None] until [initialize]; afterwards it maps a
    collection name to the records of that collection.  [self.collections]
    caches handles by collection name. *)
Record VectorStoreService := {
  client : option (gmap str (list Embedding));
  collections : gset str
}.

Definition AttributeError : exn :=
  mk_exn (lit "AttributeError")
         (lit "'NoneType' object has no attribute 'get_or_create_collection'").
Definition NotFoundError : exn :=
  mk_exn (lit "NotFoundError") (lit "Collection does not exist").
Definition LookupError : exn :=
  mk_exn (lit "IndexError") (lit "list index out of range").

(** The records the client holds under a collection name. *)
Definition records_of (s : VectorStoreService) (collection_name : str)
  : option (list Embedding) :=
  match client s with
  | Some store => store !! collection_name
  | None => None
  end.

Definition get_collection_name (persona_id : Z) : str :=
  lit "persona_" ++ str_of_int persona_id ++ lit "_knowledge".

(** Lines 67-86.  The handle returned is the collection name. *)
Definition get_or_create_collection (B : Chroma) (persona_id : Z)
    (s : VectorStoreService) : outcome str * VectorStoreService :=
  let collection_name := get_collection_name persona_id in
  if bool_decide (collection_name ∈ collections s)
  then (Return collection_name, s)
  else
    match client s with
    | None => (Raise AttributeError, s)
    | Some store =>
        let cached := {[collection_name]} ∪ collections s in
        match store !! collection_name with
        | Some _ =>
            (Return collection_name,
             {| client := Some store; collections := cached |})
        | None =>
            match create_error B collection_name with
            | Some e => (Raise e, s)
            | None =>
                (Return collection_name,
                 {| client := Some (<[collection_name := []]> store);
                    collections := cached |})
            end
        end
    end.

(** A read through a handle. *)
Definition read_collection {A} (handle : str)
    (f : list Embedding -> outcome A) (s : VectorStoreService) : outcome A :=
  match records_of s handle with
  | Some records => f records
  | None => Raise NotFoundError
  end.

(** A write through a handle: only the records under [handle] change. *)
Definition write_collection (handle : str)
    (f : list Embedding -> outcome (list Embedding)) (s : VectorStoreService)
  : outcome unit * VectorStoreService :=
  match client s with
  | Some store =>
      match store !! handle with
      | Some records =>
          match f records with
          | Return records' =>
              (Return tt,
               {| client := Some (<[handle := records']> store);
                  collections := collections s |})
          | Raise e => (Raise e, s)
          end
      | None => (Raise NotFoundError, s)
      end
  | None => (Raise NotFoundError, s)
  end.

(** [f"{document_id}_chunk_{i}"] *)
Definition chunk_id (document_id : str) (i : nat) : str :=
  document_id ++ lit "_chunk_" ++ str_of_int (Z.of_nat i).

(** Lines 117-122: the metadata of chunk [i]. *)
Definition chunk_metadata (metadata : gmap str pyval) (document_id : str)
    (i : nat) : gmap str pyval :=
  <[lit "chunk_id" := PStr (chunk_id document_id i)]>
  (<[lit "document_id" := PStr document_id]>
  (<[lit "chunk_index" := PInt (Z.of_nat i)]> metadata)).

Definition add_document (B : Chroma) (persona_id : Z) (document_id : str)
    (text_chunks : list str) (metadata : gmap str pyval)
    (s : VectorStoreService) : bool * VectorStoreService :=
  match get_or_create_collection B persona_id s with
  | (Raise _, s1) => (false, s1)
  | (Return collection, s1) =>
      let documents := text_chunks in
      let metadatas :=
        imap (fun i _ => chunk_metadata metadata document_id i) text_chunks in
      let ids := imap (fun i _ => chunk_id document_id i) text_chunks in
      match write_collection collection
              (fun records => collection_add B records documents metadatas ids)
              s1 with
      | (Return _, s2) => (true, s2)
      | (Raise _, s2) => (false, s2)
      end
  end.

(** One entry of the list [search_similar_content] returns. *)
Record SimilarDoc := {
  content : str;
  doc_metadata : gmap str pyval;
  distance : Q;
  id : option str
}.

(** [field[0][i] if field else default] *)
Definition field_at {A} (field : option (list (list A))) (i : nat)
    (default : A) : outcome A :=
  match field with
  | None | Some [] => Return default
  | Some (row :: _) =>
      match row !! i with
      | Some x => Return x
      | None => Raise LookupError
      end
  end.

(** Lines 176-182: one turn of the formatting loop. *)
Definition format_result (results : QueryResult) (i : nat) (doc : str)
  : outcome SimilarDoc :=
  match field_at (metadatas results) i ∅ with
  | Raise e => Raise e
  | Return md =>
      match field_at (distances results) i 0%Q with
      | Raise e => Raise e
      | Return dist =>
          match field_at (option_map (map (map Some)) (ids results)) i None
          with
          | Raise e => Raise e
          | Return rid =>
              Return {| content := doc; doc_metadata := md;
                        distance := dist; id := rid |}
          end
      end
  end.

(** Lines 174-182: [similar_docs] built from [docs[from:]], where
    [from] is the index of the first of them. *)
Fixpoint format_results (results : QueryResult) (from : nat) (docs : list str)
  : outcome (list SimilarDoc) :=
  match docs with
  | [] => Return []
  | doc :: rest =>
      match format_result results from doc with
      | Raise e => Raise e
      | Return d =>
          match format_results results (S from) rest with
          | Raise e => Raise e
          | Return ds => Return (d :: ds)
          end
      end
  end.

(** Lines 161-185: the body of the [try]. *)
Definition search_body (B : Chroma) (persona_id : Z) (query : str)
    (n_results : option Z) (filter_metadata : option (gmap str pyval))
    (s : VectorStoreService)
  : outcome (list SimilarDoc) * VectorStoreService :=
  match get_or_create_collection B persona_id s with
  | (Raise e, s1) => (Raise e, s1)
  | (Return collection, s1) =>
      let n_results := default (TOP_K_RETRIEVAL settings) n_results in
      match read_collection collection
              (fun records =>
                 collection_query B records query n_results filter_metadata)
              s1 with
      | Raise e => (Raise e, s1)
      | Return results =>
          match documents results with
          | Some ((_ :: _) as row :: _) => (format_results results 0 row, s1)
          | _ => (Return [], s1)
          end
      end
  end.

Definition search_similar_content (B : Chroma) (persona_id : Z) (query : str)
    (n_results : option Z) (filter_metadata : option (gmap str pyval))
    (s : VectorStoreService) : list SimilarDoc * VectorStoreService :=
  match search_body B persona_id query n_results filter_metadata s with
  | (Return similar_docs, s1) => (similar_docs, s1)
  | (Raise _, s1) => ([], s1)
  end.

Definition delete_document (B : Chroma) (persona_id : Z) (document_id : str)
    (s : VectorStoreService) : bool * VectorStoreService :=
  match get_or_create_collection B persona_id s with
  | (Raise _, s1) => (false, s1)
  | (Return collection, s1) =>
      match read_collection collection
              (fun records =>
                 collection_get B records
                   {[ lit "document_id" := PStr document_id ]})
              s1 with
      | Raise _ => (false, s1)
      | Return [] => (false, s1)
      | Return ((_ :: _) as found) =>
          match write_collection collection
                  (fun records => collection_delete B records found) s1 with
          | (Return _, s2) => (true, s2)
          | (Raise _, s2) => (false, s2)
          end
      end
  end.

Definition clear_persona_collection (persona_id : Z) (s : VectorStoreService)
  : bool * VectorStoreService :=
  let collection_name := get_collection_name persona_id in
  match client s with
  | None => (false, s)
  | Some store =>
      match store !! collection_name with
      | None => (false, s)
      | Some _ =>
          (true,
           {| client := Some (delete collection_name store);
              collections := collections s ∖ {[collection_name]} |})
      end
  end.

(* ===================================================================== *)
(** ** ai_service.py: AIService._get_relevant_context *)
(* ===================================================================== *)

(** Truth value of a metadata value. *)
Definition truthy (v : pyval) : bool :=
  match v with
  | PNone => false
  | PBool b => b
  | PInt n => negb (n =? 0)
  | PStr s => match s with [] => false | _ => true end
  end.

(** [str(v)], as an f-string formats it. *)
Definition py_str (v : pyval) : str :=
  match v with
  | PNone => lit "None"
  | PBool true => lit "True"
  | PBool false => lit "False"
  | PInt n => str_of_int n
  | PStr s => s
  end.

(** The separator ["\\n"] of line 269: a backslash and the letter n. *)
Definition context_sep : str := [92; 110]%N.

Definition context_header : str := lit "CONTEXTO DA BASE DE CONHECIMENTO:".
Definition context_rule : str := lit "---".

(** Lines 261-265: the header line of result number [i]. *)
Definition doc_header (i : Z) (doc : SimilarDoc) : str :=
  let doc_info := lit "Documento " ++ str_of_int i in
  let doc_info :=
    match doc_metadata doc !! lit "title" with
    | Some title =>
        if truthy title then doc_info ++ lit " - " ++ py_str title
        else doc_info
    | None => doc_info
    end in
  doc_info ++ lit ":".

(** [enumerate(l, start)] *)
Fixpoint enumerate {A} (start : Z) (l : list A) : list (Z * A) :=
  match l with
  | [] => []
  | x :: l' => (start, x) :: enumerate (start + 1) l'
  end.

(** Lines 257-267: one turn of the loop over [similar_docs[:3]]. *)
Definition add_context_part (context_parts : list str) (entry : Z * SimilarDoc)
  : list str :=
  let '(i, doc) := entry in
  let content := py_prefix (content doc) 500 in
  ((context_parts ++ [doc_header i doc]) ++ [content]) ++ [context_rule].

Definition _get_relevant_context (B : Chroma) (persona_id : Z) (query : str)
    (s : VectorStoreService) : str * VectorStoreService :=
  let '(similar_docs, s1) :=
    search_similar_content B persona_id query
      (Some (TOP_K_RETRIEVAL settings)) None s in
  match similar_docs with
  | [] => ([], s1)
  | _ :: _ =>
      let context_parts :=
        fold_left add_context_part
                  (enumerate 1 (py_prefix similar_docs 3))
                  [context_header] in
      (join context_sep context_parts, s1)
  end.

(* ===================================================================== *)
(** ** A small world and an in-memory backend, to run the model *)
(* ===================================================================== *)

(** [s.lower()] restricted to the letters A-Z. *)
Definition ascii_lower (s : str) : str :=
  map (fun c => if (65 <=? c)%N && (c <=? 90)%N then (c + 32)%N else c) s.

(** A file system that holds the paths of [present], each with the given
    text and size, under the [Path] of [pathlib]. *)
Definition world_of (present : list Path) (content : str) : World :=
  {| exists_ := fun p => Return (bool_decide (path_str p ∈ map path_str present));
     lower := ascii_lower;
     extract_text := fun _ _ => Return content;
     st_size := fun _ => Return (len content);
     ctime := fun _ => Raise Path_ctime_error |}.

Definition meta_matches (where_ : option (gmap str pyval)) (e : Embedding)
  : bool :=
  match where_ with
  | None => true
  | Some f =>
      bool_decide (map_Forall (fun k v => emb_metadata e !! k = Some v) f)
  end.

Definition ValueError_lengths : exn :=
  ValueError (lit "Unequal lengths for fields").
Definition ValueError_metadata : exn :=
  ValueError (lit "Expected metadata value to be a str, int, float or bool").

(** A backend that keeps records in insertion order and answers a query
    with the first [n_results] records that pass the filter.  As
    ChromaDB does, it refuses a metadata value that is [None]. *)
Definition memory_chroma : Chroma :=
  {| create_error := fun _ => None;
     collection_add := fun records docs metas ids =>
       if negb (bool_decide (length docs = length ids ∧
                             length metas = length ids))
       then Raise ValueError_lengths
       else if existsb (fun md : gmap str pyval =>
                          existsb (fun kv : str * pyval =>
                                     match kv.2 with
                                     | PNone => true
                                     | _ => false
                                     end)
                                  (map_to_list md))
                       metas
       then Raise ValueError_metadata
       else Return (records ++
                    zip_with (fun i dm => {| emb_id := i;
                                             emb_document := fst dm;
                                             emb_metadata := snd dm |})
                             ids (zip docs metas));
     collection_query := fun records _ n where_ =>
       let hits :=
         take (Z.to_nat n) (List.filter (meta_matches where_) records) in
       Return {| documents := Some [map emb_document hits];
                 metadatas := Some [map emb_metadata hits];
                 distances := Some [map (fun _ => 0%Q) hits];
                 ids := Some [map emb_id hits] |};
     collection_get := fun records where_ =>
       Return (map emb_id (List.filter (meta_matches (Some where_)) records));
     collection_delete := fun records ids =>
       Return (List.filter (fun e => negb (bool_decide (emb_id e ∈ ids)))
                           records) |}.

Definition empty_service : VectorStoreService :=
  {| client := Some ∅; collections := ∅ |}.

(** Lines 30-33: the service as [__init__] leaves it, before
    [initialize]. *)
Definition new_service : VectorStoreService :=
  {| client := None; collections := ∅ |}.


(** Paths and caller metadata for the examples below. *)
Definition txt_path : Path :=
  {| path_str := lit "docs/notes.TXT"; name := lit "notes.TXT";
     suffix := lit ".TXT" |}.
Definition csv_path : Path :=
  {| path_str := lit "docs/dados.csv"; name := lit "dados.csv";
     suffix := lit ".csv" |}.
Definition caller_metadata : gmap str pyval :=
  {[ lit "file_name" := PStr (lit "custom"); lit "persona_id" := PInt 7 ]}.

(** Inputs the examples below run the chunker on. *)
Definition stuck_text : str := lit "a.aaaa".
(** "a", newline, "bcdef" *)
Definition newline_text : str := [97; 10; 98; 99; 100; 101; 102]%N.
Definition letter_n_text : str := lit "abnde".
Definition dotted_text : str := lit "ab.cd".
(** A thousand letters, a full stop, one more letter. *)
Definition long_text : str := repeat 97%N 1000 ++ [46; 97]%N.

(* ===================================================================== *)
(** ** document_processor.py: the extractors and [validate_file] *)
(* ===================================================================== *)

(** [settings.MAX_FILE_SIZE_MB] and [settings.ALLOWED_EXTENSIONS]. *)
Definition MAX_FILE_SIZE_MB : Z := 10.
Definition ALLOWED_EXTENSIONS : list str :=
  [lit "pdf"; lit "docx"; lit "txt"; lit "md"].

(** Bytes in a megabyte: [1024 * 1024]. *)
Definition MB : Z := 1024 * 1024.

(** The separator ["\\n"] of lines 104 and 137 and the line break of the
    page marker of line 99: a backslash and the letter n. *)
Definition line_sep : str := [92; 110]%N.

(** Line 99: the part of page [page_num] (counted from 0) with text
    [text]; 225 is the letter a with an acute accent. *)
Definition pdf_page_marker (page_num : nat) (text : str) : str :=
  lit "--- P" ++ [225%N] ++ lit "gina " ++
  str_of_int (Z.of_nat page_num + 1) ++ lit " ---" ++ line_sep ++ text.

(** Lines 95-102: the loop over [enumerate(pdf_reader.pages)], from page
    [page_num] on.  A page is what [page.extract_text()] does on it. *)
Fixpoint pdf_text_content (page_num : nat) (pages : list (outcome str))
  : list str :=
  match pages with
  | [] => []
  | Return text :: rest =>
      match strip text with
      | [] => pdf_text_content (S page_num) rest
      | _ :: _ =>
          pdf_page_marker page_num text :: pdf_text_content (S page_num) rest
      end
  | Raise _ :: rest => pdf_text_content (S page_num) rest
  end.

(** [PDFProcessor.extract_text]; [reader] is what opening the file and
    building the [PdfReader] give: the pages, or an exception, which is
    raised again. *)
Definition pdf_extract_text (reader : outcome (list (outcome str)))
  : outcome str :=
  match reader with
  | Return pages => Return (join line_sep (pdf_text_content 0 pages))
  | Raise e => Raise e
  end.

(** A [docx] document: the text of its paragraphs, and for each table
    its rows, each row the text of its cells. *)
Record DocxDocument := {
  docx_paragraphs : list str;
  docx_tables : list (list (list str))
}.

(** Lines 125-128: the paragraphs kept. *)
Fixpoint docx_paragraph_parts (paragraphs : list str) : list str :=
  match paragraphs with
  | [] => []
  | paragraph :: rest =>
      match strip paragraph with
      | [] => docx_paragraph_parts rest
      | _ :: _ => strip paragraph :: docx_paragraph_parts rest
      end
  end.

(** Line 133: [" | ".join([cell.text.strip() for cell in row.cells])] *)
Definition docx_row_text (cells : list str) : str :=
  join (lit " | ") (map strip cells).

(** Lines 132-135: the rows kept, over the rows of every table. *)
Fixpoint docx_row_parts (rows : list (list str)) : list str :=
  match rows with
  | [] => []
  | cells :: rest =>
      match strip (docx_row_text cells) with
      | [] => docx_row_parts rest
      | _ :: _ => docx_row_text cells :: docx_row_parts rest
      end
  end.

(** [DOCXProcessor.extract_text]; [doc] is what [Document(file_path)]
    gives. *)
Definition docx_extract_text (doc : outcome DocxDocument) : outcome str :=
  match doc with
  | Return d =>
      Return (join line_sep
                (docx_paragraph_parts (docx_paragraphs d) ++
                 docx_row_parts (concat (docx_tables d))))
  | Raise e => Raise e
  end.

(** [DocumentProcessorService.get_supported_extensions]:
    [list(set(extensions))], a list in no fixed order, taken as the set. *)
Definition service_get_supported_extensions : gset str :=
  list_to_set (flat_map get_supported_extensions (map snd processors)).

(** The dictionary [validate_file] returns. *)
Record Validation := {
  is_valid : bool;
  validation_errors : list str;
  validation_warnings : list str
}.

Definition invalid (message : str) : Validation :=
  {| is_valid := false; validation_errors := [message];
     validation_warnings := [] |}.

(** The messages of lines 323, 329, 335-338, 345 and 356. *)
Definition msg_file_missing : str :=
  lit "Arquivo n" ++ [227%N] ++ lit "o encontrado".
Definition msg_extension (extension : str) : str :=
  lit "Extens" ++ [227%N] ++ lit "o '" ++ extension ++ lit "' n" ++
  [227%N] ++ lit "o suportada".
Definition msg_too_large (size_mb : str) : str :=
  lit "Arquivo muito grande: " ++ size_mb ++ lit "MB (m" ++ [225%N] ++
  lit "ximo: " ++ str_of_int MAX_FILE_SIZE_MB ++ lit "MB)".
Definition msg_no_processor : str :=
  lit "Processador n" ++ [227%N] ++ lit "o encontrado".
Definition msg_large_file : str :=
  lit "Arquivo grande pode demorar para processar".

(** [validate_file].  [file_size_mb] is the byte size divided by
    [1024 * 1024] as a float; the division by a power of two is correctly
    rounded and monotone, so [file_size_mb > n] for an integer [n] holds
    exactly when the byte size is above [n * 1024 * 1024], which is how
    the two comparisons are written here.  [format_mb] gives
    [f"{file_size_mb:.1f}"] for a byte size.  The calls outside any [try]
    raise to the caller. *)
Definition validate_file (w : World) (format_mb : Z → str)
    (file_path : Path) : outcome Validation :=
  match exists_ w file_path with
  | Raise e => Raise e
  | Return false => Return (invalid msg_file_missing)
  | Return true =>
      let extension := extension_of w file_path in
      if negb (bool_decide (extension ∈ service_get_supported_extensions))
      then Return (invalid (msg_extension extension))
      else
        match st_size w file_path with
        | Raise e => Raise e
        | Return file_size =>
            if file_size >? MAX_FILE_SIZE_MB * MB
            then Return (invalid (msg_too_large (format_mb file_size)))
            else
              match get_processor_for_file w file_path with
              | None => Return (invalid msg_no_processor)
              | Some _ =>
                  Return {| is_valid := true;
                            validation_errors := [];
                            validation_warnings :=
                              if file_size >? 5 * MB then [msg_large_file]
                              else [] |}
              end
        end
  end.

(* ===================================================================== *)
(** ** knowledge_base.py: the checks of [upload_document] *)
(* ===================================================================== *)

(** An [HTTPException]: status code and detail. *)
Record HTTPException := { status_code : Z; detail : str }.

(** The details of lines 188, 196 and 208; 233 and 243 are the letters
    e and o with an acute accent, 245 the letter o with a tilde. *)
Definition detail_no_filename : str :=
  lit "Nome do arquivo " ++ [233%N] ++ lit " obrigat" ++ [243%N] ++ lit "rio".
Definition detail_extension : str :=
  lit "Tipo de arquivo n" ++ [227%N] ++ lit "o suportado. Extens" ++
  [245%N] ++ lit "es permitidas: " ++ join (lit ", ") ALLOWED_EXTENSIONS.
Definition detail_too_large : str :=
  lit "Arquivo muito grande. Tamanho m" ++ [225%N] ++ lit "ximo: " ++
  str_of_int MAX_FILE_SIZE_MB ++ lit "MB".

(** Lines 185-209 of [upload_document]: the checks on the file name
    (given as [Path(file.filename)], whose [str] is the file name) and on
    the number of bytes read.  [None]: the upload goes on. *)
Definition upload_checks (w : World) (file : Path) (file_size : Z)
  : option HTTPException :=
  match path_str file with
  | [] => Some {| status_code := 400; detail := detail_no_filename |}
  | _ :: _ =>
      let file_extension := extension_of w file in
      if negb (bool_decide (file_extension ∈ ALLOWED_EXTENSIONS))
      then Some {| status_code := 400; detail := detail_extension |}
      else
        let max_size := MAX_FILE_SIZE_MB * 1024 * 1024 in
        if file_size >? max_size
        then Some {| status_code := 400; detail := detail_too_large |}
        else None
  end.

(* ===================================================================== *)
(** ** vector_store.py: [get_collection_stats] *)
(* ===================================================================== *)

(** The dictionary [get_collection_stats] returns: the statistics, or
    the one key ['error']. *)
Inductive CollectionStats :=
| Stats (total_chunks estimated_documents : Z) (collection_name : str)
        (persona_id : Z)
| StatsError (error : str).

(** A value as a member of a Python [set]: [True] and [False] are the
    same members as [1] and [0]. *)
Definition py_key (v : pyval) : pyval :=
  match v with
  | PBool b => PInt (if b then 1 else 0)
  | _ => v
  end.

(** Lines 240-244: the values added to [unique_documents], in order;
    [None] and the empty list of metadatas add nothing. *)
Definition sampled_document_ids
    (metadatas : option (list (gmap str pyval))) : list pyval :=
  match metadatas with
  | Some l => omap (λ md, py_key <$> md !! lit "document_id") l
  | None => []
  end.

(** [get_collection_stats].  [collection_count] is [collection.count()]
    and [collection_sample records limit] is
    [collection.get(limit=limit)['metadatas']] on the records of a
    collection. *)
Definition get_collection_stats (B : Chroma)
    (collection_count : list Embedding → outcome Z)
    (collection_sample : list Embedding → Z →
                         outcome (option (list (gmap str pyval))))
    (persona_id : Z) (s : VectorStoreService)
  : CollectionStats * VectorStoreService :=
  match get_or_create_collection B persona_id s with
  | (Raise e, s1) => (StatsError (exn_msg e), s1)
  | (Return collection, s1) =>
      match read_collection collection collection_count s1 with
      | Raise e => (StatsError (exn_msg e), s1)
      | Return count_result =>
          match read_collection collection
                  (λ records, collection_sample records 10) s1 with
          | Raise e => (StatsError (exn_msg e), s1)
          | Return sample_results =>
              let unique_documents :=
                remove_dups (sampled_document_ids sample_results) in
              (Stats count_result (len unique_documents)
                     (get_collection_name persona_id) persona_id, s1)
          end
      end
  end.

(* ===================================================================== *)
(** ** knowledge_base.py: [process_document_async] *)
(* ===================================================================== *)

(** [ProcessingStatus]; a row stores the [value] of a member, and the
    four values are distinct strings. *)
Inductive ProcessingStatus := PENDING | PROCESSING | COMPLETED | FAILED.

(** The columns of a [KnowledgeBase] row that [process_document_async]
    reads or writes, apart from [processed_at].  The [id] of a row is
    the key it is stored under. *)
Record KnowledgeBase := {
  kb_title : str;
  kb_description : option str;
  kb_persona_id : Z;
  kb_processing_status : ProcessingStatus;
  kb_processing_error : option str;
  kb_word_count : pyval;
  kb_chunk_count : pyval;
  kb_vector_store_id : option str
}.

(** A column that may be [None], as a metadata value. *)
Definition nullable (v : option str) : pyval :=
  match v with Some t => PStr t | None => PNone end.

(** Lines 99-104: the metadata passed to [process_document]. *)
Definition ingestion_metadata (kb_id : Z) (kb : KnowledgeBase)
  : gmap str pyval :=
  <[lit "kb_id" := PInt kb_id]>
  (<[lit "persona_id" := PInt (kb_persona_id kb)]>
  (<[lit "description" := nullable (kb_description kb)]>
  (<[lit "title" := PStr (kb_title kb)]> ∅))).

(** Lines 126-131: the metadata passed to [add_document]. *)
Definition vector_metadata (kb_id : Z) (kb : KnowledgeBase)
    (result_metadata : gmap str pyval) : gmap str pyval :=
  <[lit "kb_id" := PInt kb_id]>
  (<[lit "description" := nullable (kb_description kb)]>
  (<[lit "title" := PStr (kb_title kb)]> result_metadata)).

(** Line 120: [f"kb_{kb.id}_{uuid.uuid4().hex[:8]}"], for the eight
    characters [token] of the identifier drawn. *)
Definition make_vector_store_id (kb_id : Z) (token : str) : str :=
  lit "kb_" ++ str_of_int kb_id ++ lit "_" ++ token.

Definition msg_unknown_error : str := lit "Erro desconhecido".
Definition msg_vector_error : str :=
  lit "Erro ao adicionar documento ao banco vetorial".

Definition set_failed (kb : KnowledgeBase) (message : str) : KnowledgeBase :=
  {| kb_title := kb_title kb;
     kb_description := kb_description kb;
     kb_persona_id := kb_persona_id kb;
     kb_processing_status := FAILED;
     kb_processing_error := Some message;
     kb_word_count := kb_word_count kb;
     kb_chunk_count := kb_chunk_count kb;
     kb_vector_store_id := kb_vector_store_id kb |}.

(** [process_document_async]: the rows of the database by id and the
    vector store service, before and after.  The session is taken to
    query and commit without error, so the only exception the handler of
    lines 152-162 can see is one of [process_document]; writing a column
    and committing is one update of the row.  [None]: the chunking loop
    ran out of fuel. *)
Definition process_document_async (fuel : nat) (w : World) (B : Chroma)
    (token : str) (kb_id : Z) (file_path : Path)
    (db : gmap Z KnowledgeBase) (vs : VectorStoreService)
  : option (gmap Z KnowledgeBase * VectorStoreService) :=
  match db !! kb_id with
  | None => Some (db, vs)
  | Some kb =>
      match process_document fuel w file_path
              (Some (ingestion_metadata kb_id kb)) with
      | None => None
      | Some (Raise e) => Some (<[kb_id := set_failed kb (exn_msg e)]> db, vs)
      | Some (Return result) =>
          if negb (success result)
          then Some (<[kb_id := set_failed kb
                                  (default msg_unknown_error (error result))]>
                       db, vs)
          else
            let word_count :=
              default (PInt 0) (metadata result !! lit "word_count") in
            let chunk_count :=
              default (PInt 0) (metadata result !! lit "chunk_count") in
            let vector_store_id := make_vector_store_id kb_id token in
            let '(added, vs') :=
              add_document B (kb_persona_id kb) vector_store_id
                (chunks result)
                (vector_metadata kb_id kb (metadata result)) vs in
            let kb' :=
              if added
              then {| kb_title := kb_title kb;
                      kb_description := kb_description kb;
                      kb_persona_id := kb_persona_id kb;
                      kb_processing_status := COMPLETED;
                      kb_processing_error := None;
                      kb_word_count := word_count;
                      kb_chunk_count := chunk_count;
                      kb_vector_store_id := Some vector_store_id |}
              else {| kb_title := kb_title kb;
                      kb_description := kb_description kb;
                      kb_persona_id := kb_persona_id kb;
                      kb_processing_status := FAILED;
                      kb_processing_error := Some msg_vector_error;
                      kb_word_count := word_count;
                      kb_chunk_count := chunk_count;
                      kb_vector_store_id := kb_vector_store_id kb |} in
            Some (<[kb_id := kb']> db, vs')
      end
  end.

(** A PDF of three pages: one that fails, one blank, one with text; and
    a world whose PDF extractor reads it. *)
Definition sample_pages : list (outcome str) :=
  [Raise (ValueError (lit "bad page")); Return (lit "  "); Return (lit "Hi")].
Definition blank_pages : list (outcome str) :=
  [Raise (ValueError (lit "bad page")); Return (lit "  ")].
Definition pdf_path : Path :=
  {| path_str := lit "docs/scan.pdf"; name := lit "scan.pdf";
     suffix := lit ".pdf" |}.
Definition pdf_world (pages : list (outcome str)) : World :=
  {| exists_ := fun _ => Return true;
     lower := ascii_lower;
     extract_text := fun _ _ => pdf_extract_text (Return pages);
     st_size := fun _ => Return 2048;
     ctime := fun _ => Raise Path_ctime_error |}.

(** A row waiting to be processed. *)
Definition sample_row : KnowledgeBase :=
  {| kb_title := lit "Notes";
     kb_description := None;
     kb_persona_id := 1;
     kb_processing_status := PENDING;
     kb_processing_error := None;
     kb_word_count := PInt 0;
     kb_chunk_count := PInt 0;
     kb_vector_store_id := None |}.

(** The chunks a list of windows [(a, b)] gives: each [text[a:b]]
    stripped, the empty ones left out. *)
Definition window_chunks (text : str) (windows : list (Z * Z)) : list str :=
  List.filter (λ c, negb (bool_decide (c = [])))
              (map (λ w, strip (py_slice text w.1 w.2)) windows).

(** Two service states look the same through the handle [n]: the cache
    holds [n] in both or in neither, the client is initialised in both or
    in neither, and it holds the same records under [n]. *)
Definition same_view (n : str) (s s' : VectorStoreService) : Prop :=
  (n ∈ collections s ↔ n ∈ collections s') ∧
  (client s = None ↔ client s' = None) ∧
  records_of s n = records_of s' n.

(** Reduction in proofs stops at the operations of the source. *)
Arguments lit : simpl never.
Arguments strip : simpl never.
Arguments chunk_text : simpl never.
Arguments extension_of : simpl never.
Arguments get_processor_for_file : simpl never.
Arguments file_facts : simpl never.
Arguments get_collection_name : simpl never.

(* ===================================================================== *)
(** ** The string operations on small inputs *)
(* ===================================================================== *)

Example lit_is_code_points : lit "a.Z" = [97; 46; 90]%N.
Proof. reflexivity. Qed.

Example strip_both_ends : strip (lit "  ab  c d ") = lit "ab  c d".
Proof. reflexivity. Qed.

Example split_ws_runs : split_ws (lit "  ab  c d ") = [lit "ab"; lit "c"; lit "d"].
Proof. reflexivity. Qed.

Example py_slice_negative : py_slice (lit "abcdef") (-7) (-4) = lit "ab".
Proof. reflexivity. Qed.

Example py_index_negative : py_index (lit "abcdef") (-1) = Some 102%N.
Proof. reflexivity. Qed.

Example str_of_int_digits :
  str_of_int 0 = lit "0" ∧ str_of_int 1203 = lit "1203" ∧
  str_of_int (-45) = lit "-45".
Proof. by vm_compute. Qed.

Example get_collection_name_7 :
  get_collection_name 7 = lit "persona_7_knowledge".
Proof. reflexivity. Qed.

Example processor_by_extension :
  get_processor_for_file (world_of [] []) txt_path = Some TXTProcessor ∧
  get_processor_for_file (world_of [] []) csv_path = None.
Proof. by vm_compute. Qed.

(* ===================================================================== *)
(** ** The chunker *)
(* ===================================================================== *)

Section Chunker.

Lemma len_nonneg {A} (s : list A) : 0 <= len s.
Proof. unfold len. lia. Qed.

Lemma py_index_in_range {A} (s : list A) (i : Z) :
  0 <= i < len s → ∃ c, py_index s i = Some c.
Proof.
  intros Hi. unfold py_index.
  replace ((0 <=? i) && (i <? len s)) with true
    by (symmetry; apply andb_true_iff; split; [apply Z.leb_le | apply Z.ltb_lt]; lia).
  apply lookup_lt_is_Some_2. unfold len in Hi. lia.
Qed.

(** The backward scan, when every index it visits is inside the text:
    it does not raise, and a cut it finds lies right after a visited
    index. *)
Lemma scan_back_in_range (text : str) (n : nat) : ∀ i,
  0 <= i - Z.of_nat n + 1 → i < len text →
  scan_back text i n = Return None ∨
  ∃ j, scan_back text i n = Return (Some (j + 1)) ∧ i - Z.of_nat n < j <= i.
Proof.
  induction n as [|n IH]; intros i Hlo Hhi; [by left|].
  cbn [scan_back].
  destruct (py_index_in_range text i) as [c ->]; [lia|].
  destruct (char_in c sentence_end).
  - right. exists i. split; [done | lia].
  - destruct (IH (i - 1)) as [-> | (j & -> & Hj)]; [lia | lia | by left |].
    right. exists j. split; [done | lia].
Qed.

Lemma window_end_bounds (text : str) (chunk_size start : Z) :
  0 <= start → 1 <= chunk_size →
  ∃ e, window_end text chunk_size start = Return e ∧
       (e = start + chunk_size ∨
        start + Z.max (chunk_size - 100) 0 + 2 <= e <= start + chunk_size + 1).
Proof.
  intros Hs Hc. unfold window_end.
  destruct (Z.ltb_spec (start + chunk_size) (len text)) as [Hlt | Hge];
    [| eexists; split; [done | by left]].
  set (lo := Z.max (start + chunk_size - 100) start).
  destruct (scan_back_in_range text (Z.to_nat (start + chunk_size - lo))
                               (start + chunk_size))
    as [-> | (j & -> & Hj)]; [lia | lia | |].
  - eexists; split; [done | by left].
  - eexists; split; [done | right]. lia.
Qed.

Lemma chunk_loop_S fuel text chunk_size overlap start chunks :
  chunk_loop (S fuel) text chunk_size overlap start chunks =
  if start <? len text then
    match window_end text chunk_size start with
    | Raise e => Some (Raise e)
    | Return end_ =>
        chunk_loop fuel text chunk_size overlap (next_start end_ overlap)
          (match strip (py_slice text start end_) with
           | [] => chunks
           | _ :: _ => chunks ++ [strip (py_slice text start end_)]
           end)
    end
  else Some (Return chunks).
Proof. reflexivity. Qed.

(** The loop ends when every window moves [start] forward: the overlap
    is below the chunk size and below the shortest window a sentence cut
    can leave. *)
Lemma chunk_loop_terminates (text : str) (chunk_size overlap : Z) :
  1 <= chunk_size → overlap < chunk_size →
  overlap < Z.max (chunk_size - 100) 0 + 2 →
  ∀ fuel start chunks,
    0 <= start → (Z.to_nat (len text - start) < fuel)%nat →
    ∃ out, chunk_loop fuel text chunk_size overlap start chunks
           = Some (Return out).
Proof.
  intros Hc Hov Hcut. induction fuel as [|fuel IH]; intros start chunks Hs Hf;
    [lia|].
  rewrite chunk_loop_S.
  destruct (Z.ltb_spec start (len text)) as [Hlt | Hge]; [| by eexists].
  destruct (window_end_bounds text chunk_size start Hs Hc) as (e & -> & He).
  apply IH.
  - unfold next_start. destruct (Z.geb_spec (e - overlap) e); lia.
  - unfold next_start. destruct (Z.geb_spec (e - overlap) e); lia.
Qed.

Lemma chunk_text_default_terminates (text : str) (fuel : nat) :
  (length text < fuel)%nat →
  ∃ out, chunk_text fuel text None None = Some (Return out).
Proof.
  intros Hf. unfold chunk_text. cbn [default settings CHUNK_SIZE CHUNK_OVERLAP].
  destruct (len text <=? 1000); [by eexists|].
  apply chunk_loop_terminates; unfold len; lia.
Qed.

Lemma chunk_text_given (fuel : nat) (text : str) (chunk_size overlap : Z) :
  chunk_text fuel text (Some chunk_size) (Some overlap)
  = if len text <=? chunk_size then Some (Return [text])
    else chunk_loop fuel text chunk_size overlap 0 [].
Proof. reflexivity. Qed.

(** X2: the loop ends, and [chunk_text] returns a list, for any chunk
    size and overlap under which every window moves [start] forward:
    the overlap is below the chunk size and below
    [max(chunk_size - 100, 0) + 2].  The settings of config.py are such. *)
Lemma chunk_text_terminates (text : str) (chunk_size overlap : Z)
    (fuel : nat) :
  1 <= chunk_size → overlap < chunk_size →
  overlap < Z.max (chunk_size - 100) 0 + 2 →
  (length text < fuel)%nat →
  ∃ out, chunk_text fuel text (Some chunk_size) (Some overlap)
         = Some (Return out).
Proof.
  intros Hc Hov Hcut Hf. rewrite chunk_text_given.
  destruct (len text <=? chunk_size); [by eexists|].
  apply chunk_loop_terminates; unfold len; lia.
Qed.

(** What the backward scan returns, whatever the indices it visits: a
    cut falls right after the highest visited index that holds a
    character of [sentence_end], and no cut means that no visited index
    holds one. *)
Lemma scan_back_nearest (text : str) (n : nat) : ∀ i,
  match scan_back text i n with
  | Return (Some e) =>
      i - Z.of_nat n < e - 1 <= i ∧
      (∃ c, py_index text (e - 1) = Some c ∧ char_in c sentence_end = true) ∧
      ∀ j, e - 1 < j <= i →
           ∃ c, py_index text j = Some c ∧ char_in c sentence_end = false
  | Return None =>
      ∀ j, i - Z.of_nat n < j <= i →
           ∃ c, py_index text j = Some c ∧ char_in c sentence_end = false
  | Raise _ => True
  end.
Proof.
  induction n as [|n IH]; intros i; cbn [scan_back]; [intros j Hj; lia|].
  destruct (py_index text i) as [c|] eqn:Hc; [| done].
  destruct (char_in c sentence_end) eqn:Hin.
  - replace (i + 1 - 1) with i by lia.
    split; [lia|]. split; [by exists c|]. intros j Hj. lia.
  - specialize (IH (i - 1)).
    destruct (scan_back text (i - 1) n) as [[e|]|]; [| | done].
    + destruct IH as (Hrange & Hfound & Hskip).
      split; [lia|]. split; [done|]. intros j Hj.
      destruct (decide (j = i)) as [->|]; [by exists c|]. apply Hskip. lia.
    + intros j Hj.
      destruct (decide (j = i)) as [->|]; [by exists c|]. apply IH. lia.
Qed.

Lemma lstrip_ws_length (s : str) : (length (lstrip_ws s) <= length s)%nat.
Proof.
  induction s as [|c s IH]; cbn; [done|]. destruct (isspace c); cbn; lia.
Qed.

Lemma strip_length (s : str) : len (strip s) <= len s.
Proof.
  unfold strip, rstrip_ws, len. rewrite length_rev.
  pose proof (lstrip_ws_length (rev (lstrip_ws s))) as H1.
  pose proof (lstrip_ws_length s) as H2.
  rewrite length_rev in H1. lia.
Qed.

Lemma py_slice_length {A} (s : list A) (a b : Z) :
  a <= b → len (py_slice s a b) <= b - a.
Proof.
  intros Hab. unfold py_slice, len. rewrite length_take, length_drop.
  pose proof (len_nonneg s) as Hlen. unfold slice_bound, len in *.
  destruct (Z.ltb_spec a 0), (Z.ltb_spec b 0); lia.
Qed.

(** A window is never empty and ends at most one character after
    [start + chunk_size]. *)
Lemma window_end_range (text : str) (chunk_size start e : Z) :
  1 <= chunk_size →
  window_end text chunk_size start = Return e →
  start < e <= start + chunk_size + 1.
Proof.
  intros Hc. unfold window_end.
  destruct (start + chunk_size <? len text); [| intros [= <-]; lia].
  set (lo := Z.max (start + chunk_size - 100) start).
  pose proof (scan_back_nearest text (Z.to_nat (start + chunk_size - lo))
                                (start + chunk_size)) as Hscan.
  destruct (scan_back text _ _) as [[e'|]|]; intros [= <-]; [| lia].
  destruct Hscan as (Hrange & _). lia.
Qed.

(** Every chunk has at most [chunk_size + 1] characters. *)
Lemma chunk_loop_chunk_bound (text : str) (chunk_size overlap : Z) :
  1 <= chunk_size →
  ∀ fuel start chunks out,
    Forall (λ c, len c <= chunk_size + 1) chunks →
    chunk_loop fuel text chunk_size overlap start chunks = Some (Return out) →
    Forall (λ c, len c <= chunk_size + 1) out.
Proof.
  intros Hc. induction fuel as [|fuel IH]; intros start chunks out Hall;
    [done|].
  rewrite chunk_loop_S.
  destruct (start <? len text); [| by intros [= <-]].
  destruct (window_end text chunk_size start) as [e|] eqn:He; [| done].
  apply IH.
  destruct (strip (py_slice text start e)) as [|c chunk] eqn:Hchunk; [done|].
  apply Forall_app. split; [done|]. apply Forall_singleton.
  rewrite <- Hchunk.
  pose proof (window_end_range _ _ _ _ Hc He) as Hrange.
  pose proof (strip_length (py_slice text start e)) as Hstrip.
  pose proof (py_slice_length text start e) as Hslice. lia.
Qed.

(** X1: when the chunk size is at least 1, no chunk that [chunk_text]
    returns has more than [chunk_size + 1] characters. *)
Lemma chunk_text_chunk_bound (fuel : nat) (text : str)
    (chunk_size overlap : Z) (out : list str) :
  1 <= chunk_size →
  chunk_text fuel text (Some chunk_size) (Some overlap) = Some (Return out) →
  Forall (λ c, len c <= chunk_size + 1) out.
Proof.
  intros Hc. rewrite chunk_text_given.
  destruct (Z.leb_spec (len text) chunk_size) as [Hle|Hgt].
  - intros [= <-]. apply Forall_singleton. lia.
  - by apply chunk_loop_chunk_bound.
Qed.

Lemma chunk_loop_fuel_mono (text : str) (chunk_size overlap : Z) :
  ∀ fuel fuel' start chunks r,
    chunk_loop fuel text chunk_size overlap start chunks = Some r →
    (fuel <= fuel')%nat →
    chunk_loop fuel' text chunk_size overlap start chunks = Some r.
Proof.
  induction fuel as [|fuel IH]; intros fuel' start chunks r Hr Hle; [done|].
  destruct fuel' as [|fuel']; [lia|].
  rewrite chunk_loop_S in *.
  destruct (start <? len text); [| done].
  destruct (window_end text chunk_size start); [| done].
  eapply IH; [done | lia].
Qed.

Lemma chunk_text_fuel_mono (text : str) (chunk_size overlap : option Z)
    (fuel fuel' : nat) r :
  chunk_text fuel text chunk_size overlap = Some r →
  (fuel <= fuel')%nat →
  chunk_text fuel' text chunk_size overlap = Some r.
Proof.
  unfold chunk_text. destruct (len text <=? _); [done|].
  apply chunk_loop_fuel_mono.
Qed.

(** On [stuck_text] with windows of 3 and an overlap of 2 the first turn
    of the loop leaves [start] at 0. *)
Lemma stuck_turn :
  (0 <? len stuck_text) = true ∧
  window_end stuck_text 3 0 = Return 2 ∧
  next_start 2 2 = 0.
Proof. by vm_compute. Qed.

Lemma stuck_loop (fuel : nat) : ∀ chunks,
  chunk_loop fuel stuck_text 3 2 0 chunks = None.
Proof.
  destruct stuck_turn as (Hlt & Hend & Hnext).
  induction fuel as [|fuel IH]; intros chunks; [done|].
  rewrite chunk_loop_S, Hlt, Hend, Hnext. apply IH.
Qed.

(** C4: a text no longer than the chunk size comes back as the single
    chunk [[text]], unchanged (no stripping), whatever the overlap and
    whether the chunk size is passed or taken from the settings. *)
Theorem chunk_text_short_text (fuel : nat) (text : str)
    (chunk_size overlap : option Z) :
  len text <= default (CHUNK_SIZE settings) chunk_size →
  chunk_text fuel text chunk_size overlap = Some (Return [text]).
Proof.
  intros Hle. unfold chunk_text.
  destruct (Z.leb_spec (len text) (default (CHUNK_SIZE settings) chunk_size));
    [done | lia].
Qed.

Lemma chunk_text_short_text_witness :
  len (lit " ab ") <= default (CHUNK_SIZE settings) (Some 10) ∧
  chunk_text 0 (lit " ab ") (Some 10) (Some 3) = Some (Return [lit " ab "]).
Proof.
  split; [by vm_compute |].
  apply (chunk_text_short_text 0 (lit " ab ") (Some 10) (Some 3)).
  by vm_compute.
Defined.

(** C1: the characters the backward scan stops at are those of the
    literal of line 68, which holds a backslash and the letter n where a
    newline was meant.  A newline inside the lookback window is passed
    over and the cut falls at the raw offset; a letter n inside the
    window is taken for a sentence end and the cut falls right after it. *)
Theorem chunk_text_sentence_end_chars :
  char_in 10%N sentence_end = false ∧
  char_in 110%N sentence_end = true ∧
  (∀ fuel, chunk_text (3 + fuel) newline_text (Some 4) (Some 0)
           = Some (Return [[97; 10; 98; 99]%N; lit "def"])) ∧
  (∀ fuel, chunk_text (3 + fuel) letter_n_text (Some 4) (Some 0)
           = Some (Return [lit "abn"; lit "de"])).
Proof.
  split; [done|]. split; [done|].
  split; intros fuel;
    (apply (chunk_text_fuel_mono _ _ _ 3); [by vm_compute | lia]).
Qed.

(** C2: with [chunk_size = 3] and [overlap = 2] (so [0 <= overlap <
    chunk_size]) and a text of six characters, the loop never ends: the
    sentence cut after the full stop puts [end] at 2, and [end - overlap]
    puts [start] back at 0.  No amount of fuel yields a result. *)
Theorem chunk_text_stuck :
  len stuck_text > 3 ∧
  ∀ fuel, chunk_text fuel stuck_text (Some 3) (Some 2) = None.
Proof.
  split; [done|]. intros fuel. unfold chunk_text.
  replace (len stuck_text <=? default (CHUNK_SIZE settings) (Some 3))
    with false by done.
  apply stuck_loop.
Qed.

(** C3: a chunk can be one character longer than [chunk_size]: the scan
    starts at index [end] itself, so a sentence end found there moves the
    cut to [end + 1].  Shown for ["ab.cd"] with windows of 2, and for the
    default settings (1000 and 200) on a text whose character at index
    1000 is a full stop. *)
Theorem chunk_text_chunk_too_long :
  (∀ fuel, chunk_text (3 + fuel) dotted_text (Some 2) (Some 0)
           = Some (Return [lit "ab."; lit "cd"])) ∧
  len (lit "ab.") = 3 ∧
  (∀ fuel, chunk_text (3 + fuel) long_text None None
           = Some (Return [take 1001 long_text; drop 801 long_text])) ∧
  len long_text = 1002 ∧
  len (take 1001 long_text) = 1001.
Proof.
  split; [intros fuel; apply (chunk_text_fuel_mono _ _ _ 3); [by vm_compute | lia] |].
  split; [done|].
  split; [intros fuel; apply (chunk_text_fuel_mono _ _ _ 3); [by vm_compute | lia] |].
  by vm_compute.
Qed.

End Chunker.

(* ===================================================================== *)
(** ** The ingestion pipeline *)
(* ===================================================================== *)

Section Ingestion.

Lemma or_empty_default (metadata : option (gmap str pyval)) :
  or_empty metadata = default ∅ metadata.
Proof.
  destruct metadata as [d|]; [| done]. cbn. by case_bool_decide.
Qed.

Lemma startswith_app (p s : str) : startswith p (p ++ s) = true.
Proof.
  induction p as [|c p IH]; [done|]. cbn. by rewrite N.eqb_refl, IH.
Qed.

Lemma contains_app (p a b : str) : contains p (a ++ p ++ b) = true.
Proof.
  induction a as [|c a IH].
  - cbn [app]. destruct (p ++ b) eqn:E; cbn; rewrite <- ?E, startswith_app;
      [by destruct p | done].
  - cbn [app contains]. rewrite IH. apply orb_true_r.
Qed.

Lemma unsupported_message_contains (sfx : str) :
  contains nao_suportado (msg_unsupported ++ sfx) = true.
Proof.
  change (msg_unsupported ++ sfx)
    with (lit "Tipo de arquivo " ++ nao_suportado ++ (lit ": " ++ sfx)).
  apply contains_app.
Qed.

Variable w : World.
Variable file_path : Path.
Variable metadata : option (gmap str pyval).

Lemma process_document_missing_file (fuel : nat) :
  exists_ w file_path = Return false →
  process_document fuel w file_path metadata
  = ret (failure_result metadata
           (FileNotFoundError (msg_not_found ++ path_str file_path))).
Proof.
  intros H. unfold process_document, process_body. by rewrite H.
Qed.

Lemma process_document_unsupported (fuel : nat) :
  exists_ w file_path = Return true →
  get_processor_for_file w file_path = None →
  process_document fuel w file_path metadata
  = ret (failure_result metadata
           (ValueError (msg_unsupported ++ suffix file_path))).
Proof.
  intros H1 H2. unfold process_document, process_body. by rewrite H1, H2.
Qed.

Lemma process_document_extractor_failure (fuel : nat) processor e :
  exists_ w file_path = Return true →
  get_processor_for_file w file_path = Some processor →
  extract_text w processor file_path = Raise e →
  process_document fuel w file_path metadata = ret (failure_result metadata e).
Proof.
  intros H1 H2 H3. unfold process_document, process_body.
  by rewrite H1, H2, H3.
Qed.

Lemma process_document_empty_extraction (fuel : nat) processor extracted :
  exists_ w file_path = Return true →
  get_processor_for_file w file_path = Some processor →
  extract_text w processor file_path = Return extracted →
  strip extracted = [] →
  process_document fuel w file_path metadata
  = ret (failure_result metadata (ValueError msg_no_text)).
Proof.
  intros H1 H2 H3 H4. unfold process_document, process_body.
  rewrite H1, H2, H3. cbn. by rewrite H4.
Qed.

(** With enough fuel the body of the [try] ends, in a result or in an
    exception, and more fuel does not change which. *)
Lemma process_body_ends :
  ∃ (o : outcome ProcessResult) (n : nat), ∀ fuel, (n <= fuel)%nat →
    process_body fuel w file_path metadata = Some o.
Proof.
  unfold process_body.
  destruct (exists_ w file_path) as [[|]|e]; cbn;
    [| by eexists _, 0%nat | by eexists _, 0%nat].
  destruct (get_processor_for_file w file_path) as [processor|];
    [| by eexists _, 0%nat].
  destruct (extract_text w processor file_path) as [extracted|e]; cbn;
    [| by eexists _, 0%nat].
  destruct (strip extracted); [by eexists _, 0%nat |].
  destruct (chunk_text_default_terminates extracted (S (length extracted)))
    as [out Hout]; [lia|].
  destruct (st_size w file_path) as [file_size|e] eqn:Hsize;
    [destruct (ctime w file_path) as [processed_at|e] eqn:Hctime |];
    eexists _, (S (length extracted)); intros fuel Hfuel;
    rewrite (chunk_text_fuel_mono _ _ _ _ fuel _ Hout Hfuel); cbn;
    rewrite ?Hsize; cbn; rewrite ?Hctime; cbn; reflexivity.
Qed.

End Ingestion.

Lemma process_body_success (fuel : nat) (w : World) (file_path : Path)
    (caller : option (gmap str pyval)) (r : ProcessResult) :
  process_body fuel w file_path caller = Some (Return r) →
  success r = true ∧ error r = None ∧
  ∃ file_size processed_at,
    st_size w file_path = Return file_size ∧
    ctime w file_path = Return processed_at ∧
    metadata r =
      dict_overlay
        (file_facts w file_path file_size (text r) (chunks r) processed_at)
        (or_empty caller).
Proof.
  unfold process_body.
  destruct (exists_ w file_path) as [[|]|]; cbn; [| done | done].
  destruct (get_processor_for_file w file_path) as [processor|]; [| done].
  destruct (extract_text w processor file_path) as [extracted|]; cbn; [| done].
  destruct (strip extracted); [done|].
  destruct (chunk_text fuel extracted None None) as [[out|]|]; cbn;
    [| done | done].
  destruct (st_size w file_path) as [file_size|]; cbn; [| done].
  destruct (ctime w file_path) as [processed_at|]; cbn; [| done].
  intros [= <-]. cbn. split; [done|]. split; [done|].
  by exists file_size, processed_at.
Qed.

(** What [process_document] returns is the result of the [try] body or
    the failure record built from the exception the body raised. *)
Lemma process_document_cases (fuel : nat) (w : World) (file_path : Path)
    (metadata : option (gmap str pyval)) (r : ProcessResult) :
  process_document fuel w file_path metadata = Some (Return r) →
  process_body fuel w file_path metadata = Some (Return r) ∨
  ∃ e, process_body fuel w file_path metadata = Some (Raise e) ∧
       r = failure_result metadata e.
Proof.
  unfold process_document, try_except.
  destruct (process_body fuel w file_path metadata) as [[r'|e]|]; [| | done].
  - intros [= <-]. by left.
  - intros [= <-]. right. by exists e.
Qed.

(** C5: [process_document] never raises, whatever the fuel.  Given
    enough fuel for the chunking loop it returns a record: the body's
    own result, with
    [success = true] and no error field, or, when the body raised [e],
    a record with [success = false] and [error = str(e)].  A missing
    file, an extension without extractor, an extractor that raises and
    an extraction that is blank each give such a failure record. *)
Theorem process_document_never_raises (w : World) (file_path : Path)
    (metadata : option (gmap str pyval)) :
  (∀ fuel e, process_document fuel w file_path metadata ≠ Some (Raise e)) ∧
  (∃ (r : ProcessResult) (n : nat), ∀ fuel, (n <= fuel)%nat →
     process_document fuel w file_path metadata = Some (Return r) ∧
     (process_body fuel w file_path metadata = Some (Return r) ∧
        success r = true ∧ error r = None
      ∨ ∃ e, process_body fuel w file_path metadata = Some (Raise e) ∧
             success r = false ∧ error r = Some (exn_msg e))) ∧
  (exists_ w file_path = Return false → ∀ fuel,
     process_document fuel w file_path metadata
     = Some (Return (failure_result metadata
          (FileNotFoundError (msg_not_found ++ path_str file_path))))) ∧
  (exists_ w file_path = Return true →
   get_processor_for_file w file_path = None → ∀ fuel,
     process_document fuel w file_path metadata
     = Some (Return (failure_result metadata
          (ValueError (msg_unsupported ++ suffix file_path))))) ∧
  (∀ processor e,
     exists_ w file_path = Return true →
     get_processor_for_file w file_path = Some processor →
     extract_text w processor file_path = Raise e → ∀ fuel,
     process_document fuel w file_path metadata
     = Some (Return (failure_result metadata e))) ∧
  (∀ processor extracted,
     exists_ w file_path = Return true →
     get_processor_for_file w file_path = Some processor →
     extract_text w processor file_path = Return extracted →
     strip extracted = [] → ∀ fuel,
     process_document fuel w file_path metadata
     = Some (Return (failure_result metadata (ValueError msg_no_text)))).
Proof.
  split; [| repeat split].
  - intros fuel e. unfold process_document, try_except.
    by destruct (process_body fuel w file_path metadata) as [[r|e']|].
  - destruct (process_body_ends w file_path metadata) as ([r|e] & n & Hn).
    + exists r, n. intros fuel Hfuel. specialize (Hn fuel Hfuel).
      unfold process_document. rewrite Hn. split; [done|]. left.
      destruct (process_body_success _ _ _ _ _ Hn) as (? & ? & _). done.
    + exists (failure_result metadata e), n. intros fuel Hfuel.
      specialize (Hn fuel Hfuel).
      unfold process_document. rewrite Hn. split; [done|]. right.
      by exists e.
  - intros H fuel. by apply process_document_missing_file.
  - intros H1 H2 fuel. by apply process_document_unsupported.
  - intros processor e H1 H2 H3 fuel.
    by eapply process_document_extractor_failure.
  - intros processor extracted H1 H2 H3 H4 fuel.
    by eapply process_document_empty_extraction.
Qed.



(** C10: a failed run returns an empty text, no chunks, and exactly the
    caller's metadata (the empty dictionary when none was passed); no
    file-derived key is added. *)
Theorem process_document_failure_record (fuel : nat) (w : World)
    (file_path : Path) (caller : option (gmap str pyval))
    (r : ProcessResult) :
  process_document fuel w file_path caller = Some (Return r) →
  success r = false →
  text r = [] ∧ chunks r = [] ∧ metadata r = default ∅ caller.
Proof.
  intros Hrun Hfail.
  destruct (process_document_cases _ _ _ _ _ Hrun) as [Hbody | (e & _ & ->)].
  - destruct (process_body_success _ _ _ _ _ Hbody) as (Hok & _). congruence.
  - cbn. by rewrite or_empty_default.
Qed.

Lemma process_document_failure_record_witness :
  let w := world_of [] (lit "hello world") in
  let r := failure_result (Some caller_metadata)
             (FileNotFoundError (msg_not_found ++ path_str txt_path)) in
  process_document 0 w txt_path (Some caller_metadata) = Some (Return r) ∧
  text r = [] ∧ chunks r = [] ∧ metadata r = caller_metadata.
Proof.
  intros w r.
  assert (Hrun : process_document 0 w txt_path (Some caller_metadata)
                 = Some (Return r)) by (by vm_compute).
  split; [done|].
  apply (process_document_failure_record 0 w txt_path (Some caller_metadata)
           r Hrun).
  done.
Defined.

Lemma csv_has_no_processor (w : World) (file_path : Path) :
  suffix file_path = lit ".csv" →
  lower w (lit ".csv") = lit ".csv" →
  get_processor_for_file w file_path = None.
Proof.
  intros Hsfx Hlower. unfold get_processor_for_file, extension_of.
  rewrite Hsfx, Hlower. by vm_compute.
Qed.

(** C8, as amended: when the file exists and no extractor matches its
    extension (as for [.csv]), [process_document] returns a failure
    record whose error is the unsupported-type message followed by the
    suffix, so it contains the unsupported-format text; the text is
    empty and there are no chunks. *)
Theorem process_document_unsupported_format (fuel : nat) (w : World)
    (file_path : Path) (caller : option (gmap str pyval)) :
  exists_ w file_path = Return true →
  get_processor_for_file w file_path = None →
  ∃ r, process_document fuel w file_path caller = Some (Return r) ∧
       success r = false ∧
       error r = Some (msg_unsupported ++ suffix file_path) ∧
       contains nao_suportado (msg_unsupported ++ suffix file_path) = true ∧
       text r = [] ∧ chunks r = [].
Proof.
  intros Hexists Hnone. eexists. split.
  - by apply process_document_unsupported.
  - split; [done|]. split; [done|].
    split; [apply unsupported_message_contains | done].
Qed.

Lemma process_document_unsupported_format_witness :
  let w := world_of [csv_path] (lit "a;b;c") in
  exists_ w csv_path = Return true ∧
  get_processor_for_file w csv_path = None ∧
  ∃ r, process_document 0 w csv_path None = Some (Return r) ∧
       success r = false ∧
       error r = Some (msg_unsupported ++ lit ".csv") ∧
       contains nao_suportado (msg_unsupported ++ lit ".csv") = true ∧
       text r = [] ∧ chunks r = [].
Proof.
  intros w.
  assert (H1 : exists_ w csv_path = Return true) by (by vm_compute).
  assert (H2 : get_processor_for_file w csv_path = None) by (by vm_compute).
  split; [done|]. split; [done|].
  exact (process_document_unsupported_format 0 w csv_path None H1 H2).
Defined.

(** C8 as stated fails for a [.csv] path that does not exist: the
    existence check comes first, and the error is the not-found message,
    which does not contain the unsupported-format text. *)
Lemma csv_path_missing_file :
  let w := world_of [] (lit "a;b;c") in
  suffix csv_path = lit ".csv" ∧
  get_processor_for_file w csv_path = None ∧
  process_document 0 w csv_path None
  = Some (Return (failure_result None
       (FileNotFoundError (msg_not_found ++ lit "docs/dados.csv")))) ∧
  contains nao_suportado (msg_not_found ++ lit "docs/dados.csv") = false.
Proof. by vm_compute. Qed.

(* ===================================================================== *)
(** ** The vector index *)
(* ===================================================================== *)

Section VectorIndex.

Lemma lit_inj (a b : string) : lit a = lit b → a = b.
Proof.
  unfold lit. intros H.
  rewrite <- (string_of_list_ascii_of_string a),
          <- (string_of_list_ascii_of_string b).
  f_equal. revert H.
  generalize (list_ascii_of_string a) (list_ascii_of_string b).
  induction l as [|x l IH]; intros [|y l']; cbn; try done.
  intros [= Hxy Hl]. f_equal; [| by apply IH].
  rewrite <- (ascii_N_embedding x), <- (ascii_N_embedding y). by f_equal.
Qed.

Lemma str_of_int_inj (m n : Z) : str_of_int m = str_of_int n → m = n.
Proof.
  unfold str_of_int. intros H%lit_inj.
  apply DecimalZ.to_int_inj.
  assert (Some (Z.to_int m) = Some (Z.to_int n)) as [= ->]; [| done].
  by rewrite <- !NilEmpty.isi, H.
Qed.

(** Distinct personas have distinct collection names. *)
Lemma get_collection_name_inj (p q : Z) :
  get_collection_name p = get_collection_name q → p = q.
Proof.
  unfold get_collection_name. intros H.
  apply app_inv_head, app_inv_tail in H. by apply str_of_int_inj.
Qed.

Variable B : Chroma.

Lemma records_of_mk store cache n :
  records_of {| client := Some store; collections := cache |} n = store !! n.
Proof. done. Qed.

(** [get_or_create_collection] for a persona leaves every other
    collection as it was. *)
Lemma get_or_create_collection_view (persona_id : Z) (s : VectorStoreService)
    (n : str) :
  n ≠ get_collection_name persona_id →
  same_view n s (snd (get_or_create_collection B persona_id s)).
Proof.
  intros Hn. unfold get_or_create_collection.
  case_bool_decide; [done|].
  destruct s as [[store|] cache]; cbn [client collections]; [| done].
  destruct (store !! get_collection_name persona_id) eqn:Hstore.
  - split; [| done]. cbn. rewrite elem_of_union, elem_of_singleton.
    tauto.
  - destruct (create_error B (get_collection_name persona_id)); [done|].
    split; [| split; [done|]]; cbn [snd].
    + cbn. rewrite elem_of_union, elem_of_singleton. tauto.
    + rewrite !records_of_mk. by rewrite lookup_insert_ne.
Qed.

(** The handle it returns is the persona's collection name. *)
Lemma get_or_create_collection_handle (persona_id : Z)
    (s : VectorStoreService) (handle : str) :
  fst (get_or_create_collection B persona_id s) = Return handle →
  handle = get_collection_name persona_id.
Proof.
  unfold get_or_create_collection.
  case_bool_decide; [by intros [= <-]|].
  destruct (client s) as [store|]; [| done].
  destruct (store !! get_collection_name persona_id).
  - by intros [= <-].
  - destruct (create_error B (get_collection_name persona_id)); [done|].
    by intros [= <-].
Qed.

Lemma write_collection_view (handle : str)
    (f : list Embedding → outcome (list Embedding)) (s : VectorStoreService)
    (n : str) :
  n ≠ handle → same_view n s (snd (write_collection handle f s)).
Proof.
  intros Hn. unfold write_collection.
  destruct s as [[store|] cache]; cbn [client collections]; [| done].
  destruct (store !! handle); [| done].
  destruct (f l); [| done].
  split; [done|]. split; [done|]. cbn [snd].
  rewrite !records_of_mk. by rewrite lookup_insert_ne.
Qed.

Lemma same_view_trans n s1 s2 s3 :
  same_view n s1 s2 → same_view n s2 s3 → same_view n s1 s3.
Proof.
  intros (H1 & H2 & H3) (H4 & H5 & H6).
  split; [by rewrite H1 | split; [by rewrite H2 | by rewrite H3]].
Qed.

Lemma add_document_view (persona_id : Z) (document_id : str)
    (text_chunks : list str) (md : gmap str pyval) (s : VectorStoreService)
    (n : str) :
  n ≠ get_collection_name persona_id →
  same_view n s (snd (add_document B persona_id document_id text_chunks md s)).
Proof.
  intros Hn. unfold add_document.
  pose proof (get_or_create_collection_view persona_id s n Hn) as Hview.
  pose proof (get_or_create_collection_handle persona_id s) as Hhandle.
  destruct (get_or_create_collection B persona_id s) as [[handle|e] s1];
    [| done].
  rewrite (Hhandle handle eq_refl). cbn [snd] in Hview.
  match goal with
  | |- context [write_collection ?h ?f s1] =>
      pose proof (write_collection_view h f s1 n Hn) as Hw;
      destruct (write_collection h f s1) as [[?|?] s2]
  end; by eapply same_view_trans.
Qed.

Lemma delete_document_view (persona_id : Z) (document_id : str)
    (s : VectorStoreService) (n : str) :
  n ≠ get_collection_name persona_id →
  same_view n s (snd (delete_document B persona_id document_id s)).
Proof.
  intros Hn. unfold delete_document.
  pose proof (get_or_create_collection_view persona_id s n Hn) as Hview.
  pose proof (get_or_create_collection_handle persona_id s) as Hhandle.
  destruct (get_or_create_collection B persona_id s) as [[handle|e] s1];
    [| done].
  rewrite (Hhandle handle eq_refl). cbn [snd] in Hview.
  destruct (read_collection _ _ s1) as [[|i found]|]; [done | | done].
  match goal with
  | |- context [write_collection ?h ?f s1] =>
      pose proof (write_collection_view h f s1 n Hn) as Hw;
      destruct (write_collection h f s1) as [[?|?] s2]
  end; by eapply same_view_trans.
Qed.

Lemma clear_persona_collection_view (persona_id : Z) (s : VectorStoreService)
    (n : str) :
  n ≠ get_collection_name persona_id →
  same_view n s (snd (clear_persona_collection persona_id s)).
Proof.
  intros Hn. unfold clear_persona_collection.
  destruct s as [[store|] cache]; cbn [client collections]; [| done].
  destruct (store !! get_collection_name persona_id); [| done].
  split; [| split; [done|]]; cbn [snd].
  - cbn. rewrite elem_of_difference, elem_of_singleton. tauto.
  - rewrite !records_of_mk. by rewrite lookup_delete_ne.
Qed.

(** What [get_or_create_collection] returns for a persona, and the
    records found under its name afterwards, depend only on the view
    through that name. *)
Lemma get_or_create_collection_same (persona_id : Z)
    (s s' : VectorStoreService) :
  same_view (get_collection_name persona_id) s s' →
  fst (get_or_create_collection B persona_id s)
  = fst (get_or_create_collection B persona_id s') ∧
  records_of (snd (get_or_create_collection B persona_id s))
             (get_collection_name persona_id)
  = records_of (snd (get_or_create_collection B persona_id s'))
               (get_collection_name persona_id).
Proof.
  intros (Hcache & Hclient & Hrecords). unfold get_or_create_collection.
  set (n := get_collection_name persona_id) in *.
  destruct s as [cl cache], s' as [cl' cache']. cbn [client collections] in *.
  do 2 case_bool_decide; [done | tauto | tauto |].
  destruct cl as [store|], cl' as [store'|]; cbn in Hrecords;
    [| exfalso; destruct Hclient as [_ Hc]; discriminate (Hc eq_refl)
     | exfalso; destruct Hclient as [Hc _]; discriminate (Hc eq_refl)
     | split; reflexivity].
  rewrite Hrecords. destruct (store' !! n) eqn:Hn.
  - cbn [fst snd]. rewrite !records_of_mk. split; congruence.
  - destruct (create_error B n); cbn [fst snd]; rewrite !records_of_mk.
    + split; congruence.
    + by rewrite !lookup_insert_eq.
Qed.

Lemma search_body_same (persona_id : Z) (query : str) (n_results : option Z)
    (filter_metadata : option (gmap str pyval)) (s s' : VectorStoreService) :
  same_view (get_collection_name persona_id) s s' →
  fst (search_body B persona_id query n_results filter_metadata s)
  = fst (search_body B persona_id query n_results filter_metadata s').
Proof.
  intros Hview. unfold search_body.
  destruct (get_or_create_collection_same persona_id s s' Hview)
    as [Hfst Hrecords].
  pose proof (get_or_create_collection_handle persona_id s) as Hhandle.
  destruct (get_or_create_collection B persona_id s) as [[handle|e] s1],
           (get_or_create_collection B persona_id s') as [[handle'|e'] s1'];
    cbn [fst snd] in *; try done; [| by injection Hfst as ->].
  injection Hfst as <-. rewrite (Hhandle handle eq_refl).
  unfold read_collection. rewrite Hrecords.
  destruct (records_of s1' _) as [records|]; [| done].
  destruct (collection_query B records query _ filter_metadata)
    as [results|]; [| done].
  by destruct (documents results) as [[|[|doc row] rows]|].
Qed.

Lemma search_similar_content_same (persona_id : Z) (query : str)
    (n_results : option Z) (filter_metadata : option (gmap str pyval))
    (s s' : VectorStoreService) :
  same_view (get_collection_name persona_id) s s' →
  fst (search_similar_content B persona_id query n_results filter_metadata s)
  = fst (search_similar_content B persona_id query n_results filter_metadata
           s').
Proof.
  intros Hview. unfold search_similar_content.
  pose proof (search_body_same persona_id query n_results filter_metadata
                s s' Hview) as Hsame.
  destruct (search_body B persona_id query n_results filter_metadata s)
    as [[docs|e] s1],
    (search_body B persona_id query n_results filter_metadata s')
    as [[docs'|e'] s1']; cbn [fst] in *; congruence.
Qed.

End VectorIndex.



(* ===================================================================== *)
(** ** The context assembler *)
(* ===================================================================== *)

Section ContextAssembler.

Lemma enumerate_lookup {A} (l : list A) : ∀ (start : Z) (i : nat),
  enumerate start l !! i = (λ x, (start + Z.of_nat i, x)) <$> l !! i.
Proof.
  induction l as [|x l IH]; intros start [|i]; cbn; try done.
  - by rewrite Z.add_0_r.
  - rewrite IH. destruct (l !! i); cbn; [| done].
    do 2 f_equal. lia.
Qed.

Lemma enumerate_length {A} (l : list A) (start : Z) :
  length (enumerate start l) = length l.
Proof. revert start. induction l; intros; cbn; by rewrite ?IHl. Qed.

(** The loop appends, for each entry, its header, its truncated content
    and the rule. *)
Lemma fold_left_add_context_part (entries : list (Z * SimilarDoc)) :
  ∀ context_parts,
    fold_left add_context_part entries context_parts
    = context_parts ++
      concat ((λ e, [doc_header e.1 e.2; take 500 (content e.2); context_rule])
              <$> entries).
Proof.
  induction entries as [|[i doc] entries IH]; intros context_parts; cbn.
  - by rewrite app_nil_r.
  - rewrite IH. unfold py_prefix. by rewrite <- !app_assoc.
Qed.

(** The header of result number [i]: the label ["Documento i"], then
    [" - "] and the title when the metadata has a title that is true,
    then a colon. *)
Lemma doc_header_label (i : Z) (doc : SimilarDoc) :
  doc_header i doc
  = lit "Documento " ++ str_of_int i ++
    match doc_metadata doc !! lit "title" with
    | Some title => if truthy title then lit " - " ++ py_str title else []
    | None => []
    end ++ lit ":".
Proof.
  unfold doc_header.
  destruct (doc_metadata doc !! lit "title") as [title|];
    [destruct (truthy title) |]; by rewrite <- ?app_assoc.
Qed.

(** C9: the context is empty when the search returns nothing, which
    includes every failure of the retrieval; otherwise it is the heading
    "CONTEXTO DA BASE DE CONHECIMENTO:" followed by one block per result,
    for the first three results at most, all joined by the separator of
    line 269 (a backslash and the letter n).  The block of result number
    [i + 1] is its header, its content cut to 500 characters at most, and
    the rule "---".  The header is "Documento", the number of the
    result, then " - " and the title when the metadata of the result has
    a title that is true, then a colon. *)
Theorem get_relevant_context_shape (B : Chroma) (persona_id : Z)
    (query : str) (s : VectorStoreService) :
  let k := Some (TOP_K_RETRIEVAL settings) in
  let similar_docs :=
    fst (search_similar_content B persona_id query k None s) in
  let context := fst (_get_relevant_context B persona_id query s) in
  (similar_docs = [] → context = []) ∧
  (∀ e, fst (search_body B persona_id query k None s) = Raise e →
        context = []) ∧
  (similar_docs ≠ [] →
   ∃ blocks : list (list str),
     context
     = join [92; 110]%N
         (lit "CONTEXTO DA BASE DE CONHECIMENTO:" :: concat blocks) ∧
     length blocks = Nat.min 3 (length similar_docs) ∧
     ∀ (i : nat) doc, similar_docs !! i = Some doc → (i < 3)%nat →
       let label :=
         match doc_metadata doc !! lit "title" with
         | Some title =>
             if truthy title then lit " - " ++ py_str title else []
         | None => []
         end in
       blocks !! i
       = Some [lit "Documento " ++ str_of_int (1 + Z.of_nat i) ++ label ++
               lit ":";
               take 500 (content doc);
               lit "---"] ∧
       (length (take 500 (content doc)) <= 500)%nat).
Proof.
  intros k similar_docs context. subst context similar_docs k.
  unfold _get_relevant_context, search_similar_content.
  destruct (search_body B persona_id query _ None s) as [[docs|e'] s1];
    cbn [fst]; [| done].
  split; [by intros ->|]. split; [done|].
  intros Hdocs. destruct docs as [|doc0 docs]; [done|].
  set (all := doc0 :: docs). cbn [fst].
  exists ((λ e, [doc_header e.1 e.2; take 500 (content e.2); context_rule])
          <$> enumerate 1 (take 3 all)).
  split; [by rewrite fold_left_add_context_part|].
  split; [by rewrite length_fmap, enumerate_length, length_take|].
  intros i doc Hi Hlt. cbn zeta. split; [| apply firstn_le_length].
  rewrite list_lookup_fmap, enumerate_lookup, lookup_take_lt by done.
  rewrite Hi. cbn [fmap option_fmap option_map fst snd].
  by rewrite doc_header_label.
Qed.

(** Four chunks under persona 1: the context shows the first three. *)
Example get_relevant_context_three_of_four :
  let s := snd (add_document memory_chroma 1 (lit "d")
                  [lit "abc"; lit "def"; lit "g"; lit "h"] ∅ empty_service) in
  fst (_get_relevant_context memory_chroma 1 (lit "x") s)
  = join context_sep
      [ context_header;
        lit "Documento 1:"; lit "abc"; lit "---";
        lit "Documento 2:"; lit "def"; lit "---";
        lit "Documento 3:"; lit "g"; lit "---" ] ∧
  fst (_get_relevant_context memory_chroma 2 (lit "x") s) = [].
Proof. by vm_compute. Qed.

End ContextAssembler.

(* ===================================================================== *)
(** ** More on the chunker: cuts, stripping, coverage *)
(* ===================================================================== *)

Section ChunkerWindows.

Lemma chunk_text_chunk_bound_witness :
  Forall (λ c, len c <= 2 + 1) [lit "ab."; lit "cd"].
Proof.
  apply (chunk_text_chunk_bound 3 dotted_text 2 0 [lit "ab."; lit "cd"]);
    [lia | by vm_compute].
Defined.

Lemma chunk_text_terminates_witness :
  ∃ out, chunk_text 6 dotted_text (Some 2) (Some 1) = Some (Return out).
Proof.
  apply (chunk_text_terminates dotted_text 2 1 6); [lia | lia | lia |].
  vm_compute. lia.
Defined.

(** X3: where a window does not reach the end of the text, the cut
    falls right after the nearest character of [sentence_end] found
    going back from index [start + chunk_size], over at most 100 indices
    and never back to [start] itself; when none of those indices holds
    one, the cut is at [start + chunk_size]. *)
Theorem window_end_cut (text : str) (chunk_size start : Z) :
  0 <= start → 1 <= chunk_size → start + chunk_size < len text →
  let lo := Z.max (start + chunk_size - 100) start in
  ∃ e, window_end text chunk_size start = Return e ∧
    ((e = start + chunk_size ∧
      ∀ j, lo < j <= start + chunk_size →
           ∃ c, py_index text j = Some c ∧ char_in c sentence_end = false) ∨
     (lo < e - 1 <= start + chunk_size ∧
      (∃ c, py_index text (e - 1) = Some c ∧ char_in c sentence_end = true) ∧
      ∀ j, e - 1 < j <= start + chunk_size →
           ∃ c, py_index text j = Some c ∧ char_in c sentence_end = false)).
Proof.
  intros Hs Hc Hlt lo. unfold window_end.
  destruct (Z.ltb_spec (start + chunk_size) (len text)); [| lia].
  fold lo.
  pose proof (scan_back_nearest text (Z.to_nat (start + chunk_size - lo))
                                (start + chunk_size)) as Hnear.
  destruct (scan_back_in_range text (Z.to_nat (start + chunk_size - lo))
                               (start + chunk_size))
    as [Hnone | (j & Hsome & Hj)]; [lia | lia | |].
  - rewrite Hnone in *. eexists. split; [done|]. left. split; [done|].
    intros j Hj. apply Hnear. lia.
  - rewrite Hsome in *. eexists. split; [done|]. right.
    destruct Hnear as (Hrange & Hfound & Hskip).
    split; [lia|]. split; [done|]. done.
Qed.

Lemma window_end_cut_witness :
  ∃ e, window_end (lit "One. Two three") 8 0 = Return e ∧ e = 4.
Proof.
  destruct (window_end_cut (lit "One. Two three") 8 0) as (e & He & Hcut);
    [lia | lia | by vm_compute |].
  exists e. split; [done|].
  vm_compute in He. by injection He as <-.
Defined.

Lemma lstrip_ws_split (s : str) :
  ∃ pre, s = pre ++ lstrip_ws s ∧ Forall (λ c, isspace c = true) pre.
Proof.
  induction s as [|c s (pre & Hs & Hpre)]; [by exists []|]. cbn.
  destruct (isspace c) eqn:Hc; [| by exists []].
  exists (c :: pre). split; [cbn; by rewrite <- Hs | by constructor].
Qed.

Lemma lstrip_ws_head (s : str) c t :
  lstrip_ws s = c :: t → isspace c = false.
Proof.
  induction s as [|x s IH]; [done|]. cbn.
  destruct (isspace x) eqn:Hx; [done | by intros [= <- _]].
Qed.

Lemma lstrip_ws_idem (s : str) : lstrip_ws (lstrip_ws s) = lstrip_ws s.
Proof.
  destruct (lstrip_ws s) as [|c t] eqn:Hs; [done|].
  cbn. by rewrite (lstrip_ws_head _ _ _ Hs).
Qed.

Lemma rstrip_ws_split (s : str) :
  ∃ suf, s = rstrip_ws s ++ suf ∧ Forall (λ c, isspace c = true) suf.
Proof.
  unfold rstrip_ws. destruct (lstrip_ws_split (rev s)) as (pre & Hs & Hpre).
  exists (rev pre). split; [| by apply Forall_rev].
  rewrite <- rev_app_distr, <- Hs. by rewrite rev_involutive.
Qed.

(** Stripping removes whitespace at the two ends and nothing else. *)
Lemma strip_split (s : str) :
  ∃ pre suf, s = pre ++ strip s ++ suf ∧
             Forall (λ c, isspace c = true) pre ∧
             Forall (λ c, isspace c = true) suf.
Proof.
  unfold strip. destruct (lstrip_ws_split s) as (pre & Hs & Hpre).
  destruct (rstrip_ws_split (lstrip_ws s)) as (suf & Ht & Hsuf).
  exists pre, suf. split; [| done]. by rewrite <- Ht.
Qed.

Lemma strip_head (s : str) c t : strip s = c :: t → isspace c = false.
Proof.
  unfold strip. intros Hr.
  destruct (rstrip_ws_split (lstrip_ws s)) as (suf & Ht & _).
  rewrite Hr in Ht. cbn in Ht. by apply (lstrip_ws_head s c (t ++ suf)).
Qed.

Lemma strip_idem (s : str) : strip (strip s) = strip s.
Proof.
  assert (Hl : lstrip_ws (strip s) = strip s).
  { destruct (strip s) as [|c t] eqn:Hs; [done|].
    cbn. by rewrite (strip_head _ _ _ Hs). }
  unfold strip at 1. rewrite Hl. unfold strip, rstrip_ws.
  by rewrite rev_involutive, lstrip_ws_idem.
Qed.

Lemma py_slice_infix {A} (s : list A) (a b : Z) :
  ∃ pre suf, s = pre ++ py_slice s a b ++ suf.
Proof.
  unfold py_slice.
  exists (take (Z.to_nat (slice_bound s a)) s),
         (drop (Z.to_nat (slice_bound s b - slice_bound s a))
               (drop (Z.to_nat (slice_bound s a)) s)).
  by rewrite !take_drop.
Qed.

(** What holds of every stripped, non-empty window holds of every chunk
    the loop adds. *)
Lemma chunk_loop_forall (P : str → Prop) (text : str)
    (chunk_size overlap : Z) :
  (∀ a b, strip (py_slice text a b) ≠ [] → P (strip (py_slice text a b))) →
  ∀ fuel start chunks out,
    Forall P chunks →
    chunk_loop fuel text chunk_size overlap start chunks = Some (Return out) →
    Forall P out.
Proof.
  intros HP. induction fuel as [|fuel IH]; intros start chunks out Hall;
    [done|].
  rewrite chunk_loop_S.
  destruct (start <? len text); [| by intros [= <-]].
  destruct (window_end text chunk_size start) as [e|]; [| done].
  apply IH.
  destruct (strip (py_slice text start e)) as [|c chunk] eqn:Hchunk; [done|].
  apply Forall_app. split; [done|]. apply Forall_singleton.
  rewrite <- Hchunk. apply HP. by rewrite Hchunk.
Qed.

(** X4: when the text is longer than the chunk size, every chunk that
    [chunk_text] returns is non-empty and has no whitespace at either
    end (stripping it again changes nothing). *)
Theorem chunk_text_chunks_stripped (fuel : nat) (text : str)
    (chunk_size overlap : option Z) (out : list str) :
  default (CHUNK_SIZE settings) chunk_size < len text →
  chunk_text fuel text chunk_size overlap = Some (Return out) →
  Forall (λ c, c ≠ [] ∧ strip c = c) out.
Proof.
  intros Hlong. unfold chunk_text.
  destruct (Z.leb_spec (len text) (default (CHUNK_SIZE settings) chunk_size));
    [lia|].
  apply chunk_loop_forall; [| done].
  intros a b Hne. split; [done | apply strip_idem].
Qed.

Lemma chunk_text_chunks_stripped_witness :
  Forall (λ c, c ≠ [] ∧ strip c = c) [lit "One."; lit "Two"].
Proof.
  apply (chunk_text_chunks_stripped 3 (lit "One.  Two ") (Some 6) (Some 0));
    by vm_compute.
Defined.

(** X5: every chunk that [chunk_text] returns is a contiguous piece of
    the text: the text is some prefix, the chunk, some suffix. *)
Theorem chunk_text_chunks_in_text (fuel : nat) (text : str)
    (chunk_size overlap : option Z) (out : list str) :
  chunk_text fuel text chunk_size overlap = Some (Return out) →
  Forall (λ c, ∃ pre suf, text = pre ++ c ++ suf) out.
Proof.
  unfold chunk_text.
  destruct (len text <=? default (CHUNK_SIZE settings) chunk_size).
  - intros [= <-]. apply Forall_singleton. exists [], [].
    by rewrite app_nil_r.
  - apply chunk_loop_forall; [| done].
    intros a b _.
    destruct (py_slice_infix text a b) as (pre & suf & Htext).
    destruct (strip_split (py_slice text a b)) as (pre' & suf' & Hs & _).
    exists (pre ++ pre'), (suf' ++ suf).
    rewrite Htext at 1. rewrite Hs at 1. by rewrite <- !app_assoc.
Qed.

Lemma chunk_text_chunks_in_text_witness :
  Forall (λ c, ∃ pre suf, lit "One.  Two " = pre ++ c ++ suf)
         [lit "One."; lit "Two"].
Proof.
  apply (chunk_text_chunks_in_text 3 (lit "One.  Two ") (Some 6) (Some 0)).
  by vm_compute.
Defined.

Lemma window_chunks_cons (text : str) (a b : Z) (ws : list (Z * Z)) :
  window_chunks text ((a, b) :: ws)
  = match strip (py_slice text a b) with
    | [] => window_chunks text ws
    | _ :: _ => strip (py_slice text a b) :: window_chunks text ws
    end.
Proof.
  unfold window_chunks. cbn [map List.filter fst snd].
  by destruct (strip (py_slice text a b)).
Qed.

Lemma chunk_loop_windows (text : str) (chunk_size overlap : Z) :
  1 <= chunk_size → overlap < chunk_size →
  overlap < Z.max (chunk_size - 100) 0 + 2 →
  ∀ fuel start chunks out,
    0 <= start →
    chunk_loop fuel text chunk_size overlap start chunks = Some (Return out) →
    ∃ windows : list (Z * Z),
      out = chunks ++ window_chunks text windows ∧
      Forall (λ w, 0 <= w.1 ∧ w.1 < w.2 <= w.1 + chunk_size + 1) windows ∧
      ∀ p, start <= p < len text → ∃ w, w ∈ windows ∧ w.1 <= p < w.2.
Proof.
  intros Hc Hov Hcut. induction fuel as [|fuel IH];
    intros start chunks out Hs; [done|].
  rewrite chunk_loop_S.
  destruct (Z.ltb_spec start (len text)) as [Hlt | Hge].
  2: { intros [= <-]. exists []. rewrite app_nil_r.
       split; [done|]. split; [done|]. intros p Hp. lia. }
  destruct (window_end_bounds text chunk_size start Hs Hc) as (e & He & Hlow).
  pose proof (window_end_range _ _ _ _ Hc He) as Hrange.
  rewrite He. intros Hrun.
  assert (Hnext : start < next_start e overlap <= e)
    by (unfold next_start; destruct (Z.geb_spec (e - overlap) e); lia).
  apply IH in Hrun as (ws & Hout & Hok & Hcover); [| lia].
  exists ((start, e) :: ws). split; [| split].
  - rewrite Hout, window_chunks_cons.
    destruct (strip (py_slice text start e)); [done|].
    by rewrite <- app_assoc.
  - constructor; [cbn; lia | done].
  - intros p Hp. destruct (Z.lt_ge_cases p e) as [Hpe | Hpe].
    + exists (start, e). split; [apply list_elem_of_here | cbn; lia].
    + destruct (Hcover p) as (w & Hw & Hpw); [lia|].
      exists w. split; [by apply list_elem_of_further | done].
Qed.

(** X6: under the conditions that make the loop end, and for a text
    longer than the chunk size, the chunks are the stripped, non-empty
    windows [text[a:b]] of a list of windows that start inside the text,
    are at most [chunk_size + 1] long, and together cover every position
    of the text: nothing but whitespace at the ends of a window is left
    out. *)
Theorem chunk_text_windows_cover (fuel : nat) (text : str)
    (chunk_size overlap : Z) (out : list str) :
  1 <= chunk_size → overlap < chunk_size →
  overlap < Z.max (chunk_size - 100) 0 + 2 →
  chunk_size < len text →
  chunk_text fuel text (Some chunk_size) (Some overlap) = Some (Return out) →
  ∃ windows : list (Z * Z),
    out = window_chunks text windows ∧
    Forall (λ w, 0 <= w.1 ∧ w.1 < w.2 <= w.1 + chunk_size + 1) windows ∧
    ∀ p, 0 <= p < len text → ∃ w, w ∈ windows ∧ w.1 <= p < w.2.
Proof.
  intros Hc Hov Hcut Hlong. rewrite chunk_text_given.
  destruct (Z.leb_spec (len text) chunk_size); [lia|].
  intros Hrun.
  by apply (chunk_loop_windows text chunk_size overlap Hc Hov Hcut
              fuel 0 [] out).
Qed.

Lemma chunk_text_windows_cover_witness :
  ∃ windows : list (Z * Z),
    [lit "One."; lit "Two"] = window_chunks (lit "One.  Two ") windows ∧
    Forall (λ w, 0 <= w.1 ∧ w.1 < w.2 <= w.1 + 6 + 1) windows ∧
    ∀ p, 0 <= p < len (lit "One.  Two ") →
         ∃ w, w ∈ windows ∧ w.1 <= p < w.2.
Proof.
  apply (chunk_text_windows_cover 3 (lit "One.  Two ") 6 0);
    [lia | lia | lia | by vm_compute | by vm_compute].
Defined.

End ChunkerWindows.

(* ===================================================================== *)
(** ** Extensions, validation and upload *)
(* ===================================================================== *)

Section Validation.

Lemma elem_of_supported (extension : str) :
  extension ∈ service_get_supported_extensions ↔
  extension = lit "pdf" ∨ extension = lit "docx" ∨ extension = lit "txt" ∨
  extension = lit "md" ∨ extension = lit "markdown".
Proof.
  unfold service_get_supported_extensions. rewrite elem_of_list_to_set.
  cbn [processors map snd flat_map get_supported_extensions app].
  rewrite !elem_of_cons, elem_of_nil. tauto.
Qed.

Lemma processor_for_extension (w : World) (file_path : Path) :
  is_Some (get_processor_for_file w file_path) ↔
  extension_of w file_path = lit "pdf" ∨
  extension_of w file_path = lit "docx" ∨
  extension_of w file_path = lit "txt" ∨
  extension_of w file_path = lit "md" ∨
  extension_of w file_path = lit "markdown".
Proof.
  unfold get_processor_for_file.
  generalize (extension_of w file_path). intros extension.
  cbn [processors map snd find get_supported_extensions].
  repeat case_bool_decide;
    repeat match goal with
           | H : _ |- _ =>
               progress rewrite ?not_elem_of_cons, ?elem_of_cons,
                                ?elem_of_nil in H
           end;
    (split;
     [ intros Hsome; try tauto; by destruct Hsome as [? [=]]
     | intros Hext; try (by eexists); exfalso; tauto ]).
Qed.

Lemma supported_iff_processor (w : World) (file_path : Path) :
  extension_of w file_path ∈ service_get_supported_extensions ↔
  is_Some (get_processor_for_file w file_path).
Proof. by rewrite elem_of_supported, processor_for_extension. Qed.

(** X7: an extension is in the list [get_supported_extensions] of the
    service exactly when [get_processor_for_file] finds a processor for
    it, and that is for the extensions pdf, docx, txt, md and markdown. *)
Theorem supported_extension_has_processor (w : World) (file_path : Path) :
  (extension_of w file_path ∈ service_get_supported_extensions ↔
   is_Some (get_processor_for_file w file_path)) ∧
  (is_Some (get_processor_for_file w file_path) ↔
   extension_of w file_path ∈
     [lit "pdf"; lit "docx"; lit "txt"; lit "md"; lit "markdown"]).
Proof.
  split; [apply supported_iff_processor|].
  rewrite processor_for_extension, !elem_of_cons, elem_of_nil. tauto.
Qed.

(** X8: the verdict of [validate_file].  A file is valid exactly when
    it exists, a processor matches its extension and it has at most
    [MAX_FILE_SIZE_MB] megabytes; a valid verdict has no error and an
    invalid one has exactly one; the error that no processor was found
    never occurs; and a warning is given only for a valid file above 5
    megabytes. *)
Theorem validate_file_verdict (w : World) (format_mb : Z → str)
    (file_path : Path) (v : Validation) :
  validate_file w format_mb file_path = Return v →
  (is_valid v = true ↔
     exists_ w file_path = Return true ∧
     is_Some (get_processor_for_file w file_path) ∧
     ∃ file_size, st_size w file_path = Return file_size ∧
                  file_size <= MAX_FILE_SIZE_MB * MB) ∧
  (if is_valid v then validation_errors v = []
   else ∃ message, validation_errors v = [message] ∧
                   message ≠ msg_no_processor) ∧
  (validation_warnings v ≠ [] →
     is_valid v = true ∧
     ∃ file_size, st_size w file_path = Return file_size ∧ 5 * MB < file_size).
Proof.
  unfold validate_file.
  destruct (exists_ w file_path) as [[|]|]; [| | done].
  2: { intros [= <-]. cbn. split; [| split; [| done]].
       - split; [done | by intros ([=] & _)].
       - by eexists. }
  pose proof (supported_iff_processor w file_path) as Hsup.
  case_bool_decide as Hext; cbn [negb].
  2: { intros [= <-]. cbn. split; [| split; [| done]].
       - split; [done | intros (_ & Hp & _); tauto].
       - eexists. split; [done|].
         unfold msg_extension, msg_no_processor. by vm_compute. }
  destruct (st_size w file_path) as [file_size|]; [| done].
  rewrite Z.gtb_ltb. destruct (Z.ltb_spec (MAX_FILE_SIZE_MB * MB) file_size).
  { intros [= <-]. cbn. split; [| split; [| done]].
    - split; [done | intros (_ & _ & size & [= <-] & Hle); lia].
    - eexists. split; [done|].
      unfold msg_too_large, msg_no_processor. by vm_compute. }
  destruct (get_processor_for_file w file_path) as [processor|] eqn:Hproc.
  2: { exfalso. apply Hsup in Hext. by destruct Hext. }
  intros [= <-]. cbn. split; [| split; [done|]].
  - split; [| done]. intros _. split; [done|]. split; [by eexists|].
    by exists file_size.
  - rewrite Z.gtb_ltb. destruct (Z.ltb_spec (5 * MB) file_size); [| done].
    intros _. split; [done|]. by exists file_size.
Qed.

Lemma validate_file_verdict_witness :
  let w := world_of [txt_path] (lit "hello world") in
  ∃ v, validate_file w (λ _, lit "0.0") txt_path = Return v ∧
       is_valid v = true ∧ validation_errors v = [] ∧
       validation_warnings v = [].
Proof.
  intros w.
  destruct (validate_file w (λ _, lit "0.0") txt_path) as [v|] eqn:Hv;
    [| by vm_compute in Hv].
  exists v. split; [done|].
  destruct (validate_file_verdict w (λ _, lit "0.0") txt_path v Hv)
    as (Hvalid & Herrors & _).
  assert (Hw : validation_warnings v = [])
    by (vm_compute in Hv; by injection Hv as <-).
  assert (Hok : is_valid v = true).
  { apply Hvalid. split; [by vm_compute|].
    split; [vm_compute; by eexists|].
    exists 11. split; [by vm_compute | unfold MAX_FILE_SIZE_MB, MB; lia]. }
  rewrite Hok in Herrors. done.
Defined.

Lemma extension_of_suffix (w : World) (p q : Path) :
  suffix p = suffix q → extension_of w p = extension_of w q.
Proof. unfold extension_of. by intros ->. Qed.

(** X9: a file that passes the checks of [upload_document] and is then
    stored with the same suffix and the same number of bytes is valid
    for [validate_file], and [get_processor_for_file] finds a processor
    for it: every extension the upload allows has an extractor and the
    two size limits agree. *)
Theorem upload_accepted_is_valid (w : World) (format_mb : Z → str)
    (file saved : Path) (file_size : Z) :
  upload_checks w file file_size = None →
  suffix saved = suffix file →
  exists_ w saved = Return true →
  st_size w saved = Return file_size →
  is_Some (get_processor_for_file w saved) ∧
  ∃ v, validate_file w format_mb saved = Return v ∧
       is_valid v = true ∧ validation_errors v = [].
Proof.
  unfold upload_checks. intros Hup Hsfx Hexists Hsize.
  destruct (path_str file); [done|].
  case_bool_decide as Hext; [| done]. cbn [negb] in Hup.
  rewrite Z.gtb_ltb in Hup.
  destruct (Z.ltb_spec (MAX_FILE_SIZE_MB * 1024 * 1024) file_size); [done|].
  rewrite <- (extension_of_suffix w saved file Hsfx) in Hext.
  assert (Hsup : extension_of w saved ∈ service_get_supported_extensions).
  { apply elem_of_supported. unfold ALLOWED_EXTENSIONS in Hext.
    rewrite !elem_of_cons, elem_of_nil in Hext. tauto. }
  pose proof Hsup as Hproc. apply supported_iff_processor in Hproc.
  split; [done|].
  unfold validate_file. rewrite Hexists, Hsize.
  rewrite (bool_decide_eq_true_2 _ Hsup). cbn [negb].
  rewrite Z.gtb_ltb.
  destruct (Z.ltb_spec (MAX_FILE_SIZE_MB * MB) file_size);
    [unfold MB in *; lia|].
  destruct Hproc as [processor ->]. by eexists.
Qed.

Lemma upload_accepted_is_valid_witness :
  let w := world_of [txt_path] (lit "hello world") in
  is_Some (get_processor_for_file w txt_path) ∧
  ∃ v, validate_file w (λ _, lit "0.0") txt_path = Return v ∧
       is_valid v = true ∧ validation_errors v = [].
Proof.
  intros w.
  apply (upload_accepted_is_valid w (λ _, lit "0.0") txt_path txt_path 11);
    by vm_compute.
Defined.

(** The upload refuses the extension [markdown], for which the service
    has a processor. *)
Example upload_refuses_markdown :
  let file := {| path_str := lit "a.markdown"; name := lit "a.markdown";
                 suffix := lit ".markdown" |} in
  option_map status_code (upload_checks (world_of [] []) file 10) = Some 400 ∧
  get_processor_for_file (world_of [] []) file = Some MarkdownProcessor.
Proof. by vm_compute. Qed.

End Validation.

(* ===================================================================== *)
(** ** The PDF and DOCX extractors *)
(* ===================================================================== *)

Section Extractors.

Lemma lstrip_ws_all_space (s : str) :
  Forall (λ c, isspace c = true) s → lstrip_ws s = [].
Proof. induction 1 as [|c s Hc _ IH]; [done|]. cbn. by rewrite Hc. Qed.

(** A string strips to nothing exactly when it is all whitespace. *)
Lemma strip_nil_iff (s : str) :
  strip s = [] ↔ Forall (λ c, isspace c = true) s.
Proof.
  split.
  - intros Hs. destruct (strip_split s) as (pre & suf & -> & Hpre & Hsuf).
    rewrite Hs. cbn. by apply Forall_app.
  - intros Hall. unfold strip. by rewrite lstrip_ws_all_space.
Qed.

Lemma strip_nonspace (s : str) (c : N) :
  c ∈ s → isspace c = false → strip s ≠ [].
Proof.
  intros Hc Hns Hs. apply strip_nil_iff in Hs.
  rewrite Forall_forall in Hs. specialize (Hs c Hc). congruence.
Qed.

Lemma join_cons_head (sep p : str) (rest : list str) :
  ∃ tail, join sep (p :: rest) = p ++ tail.
Proof.
  destruct rest as [|q rest]; [exists []; cbn; by rewrite app_nil_r|].
  by eexists.
Qed.

Lemma pdf_text_content_nil (pages : list (outcome str)) : ∀ page_num,
  pdf_text_content page_num pages = [] ↔
  Forall (λ page, match page with
                  | Return t => strip t = []
                  | Raise _ => True
                  end) pages.
Proof.
  induction pages as [|[t|e] pages IH]; intros page_num; cbn.
  - done.
  - destruct (strip t) eqn:Ht.
    + rewrite IH. split; [by constructor | by inversion 1].
    + split; [done | inversion 1; congruence].
  - rewrite IH. split; [by constructor | by inversion 1].
Qed.

Lemma pdf_text_content_head (pages : list (outcome str)) :
  ∀ page_num part parts,
    pdf_text_content page_num pages = part :: parts →
    ∃ tail, part = 45%N :: tail.
Proof.
  induction pages as [|[t|e] pages IH]; intros page_num part parts; cbn.
  - done.
  - destruct (strip t); [apply IH|]. intros [= <- _]. by eexists.
  - apply IH.
Qed.

(** The text of a PDF is blank exactly when no page extracts to a
    text that is not blank. *)
Lemma pdf_extract_text_blank_iff (pages : list (outcome str)) :
  ∃ text, pdf_extract_text (Return pages) = Return text ∧
    (strip text = [] ↔
     Forall (λ page, match page with
                     | Return t => strip t = []
                     | Raise _ => True
                     end) pages).
Proof.
  eexists. split; [done|].
  rewrite <- (pdf_text_content_nil pages 0).
  destruct (pdf_text_content 0 pages) as [|part parts] eqn:Hparts; [done|].
  split; [| done]. intros Hblank. exfalso.
  destruct (pdf_text_content_head _ _ _ _ Hparts) as (tail & ->).
  destruct (join_cons_head line_sep (45%N :: tail) parts) as (rest & Hjoin).
  rewrite Hjoin in Hblank.
  apply (strip_nonspace _ 45%N) in Hblank; [done | | done].
  apply list_elem_of_here.
Qed.

Lemma omap_pointwise {A C} (f g : A → option C) (l : list A) :
  (∀ x, f x = g x) → omap f l = omap g l.
Proof.
  intros Hfg. induction l as [|x l IH]; cbn; [done|]. by rewrite Hfg, IH.
Qed.

Lemma omap_seq_S {C} (f : nat → option C) (j n : nat) :
  omap f (seq (S j) n) = omap (λ i, f (S i)) (seq j n).
Proof.
  revert j. induction n as [|n IH]; intros j; cbn; [done|].
  by rewrite IH.
Qed.

(** The loop over the pages, page by page: the part of the page at
    index [i], when it has one, carries the number [page_num + i + 1]. *)
Lemma pdf_text_content_by_index (pages : list (outcome str)) :
  ∀ page_num,
    pdf_text_content page_num pages
    = omap (λ i, match pages !! i with
                 | Some (Return text) =>
                     if bool_decide (strip text = []) then None
                     else Some (pdf_page_marker (page_num + i) text)
                 | _ => None
                 end)
           (seq 0 (length pages)).
Proof.
  induction pages as [|page pages IH]; intros page_num; [done|].
  cbn [length seq omap list_omap]. rewrite omap_seq_S.
  cbn [lookup list_lookup]. rewrite Nat.add_0_r.
  assert (Hrest : pdf_text_content (S page_num) pages
                  = omap (λ i, match pages !! i with
                               | Some (Return text) =>
                                   if bool_decide (strip text = []) then None
                                   else Some (pdf_page_marker
                                                (page_num + S i) text)
                               | _ => None
                               end)
                         (seq 0 (length pages))).
  { rewrite IH. apply omap_pointwise. intros i.
    by rewrite Nat.add_succ_r. }
  destruct page as [text|e]; cbn [pdf_text_content]; [| done].
  destruct (strip text) eqn:Hstrip.
  - by rewrite bool_decide_eq_true_2.
  - rewrite bool_decide_eq_false_2 by done. by rewrite Hrest.
Qed.

(** X10: what [PDFProcessor.extract_text] returns for a reader that
    opens.  The page at index [i] gives a part exactly when its text
    extracts and is not blank; the part is the marker
    "--- P[a]gina [i + 1] ---" (an acute accent on the a, code point
    225), a backslash and the letter n, and the text of the page as
    extracted.  The result is these parts in the order of the pages,
    joined by a backslash and the letter n: a page that fails or is
    blank is left out and the numbering follows the file.  The result is
    blank exactly when no page has a part, and it is then the empty
    string. *)
Theorem pdf_extract_text_pages (pages : list (outcome str)) :
  let part (i : nat) : option str :=
    match pages !! i with
    | Some (Return text) =>
        if bool_decide (strip text = []) then None
        else Some (lit "--- P" ++ [225%N] ++ lit "gina " ++
                   str_of_int (Z.of_nat i + 1) ++ lit " ---" ++
                   [92; 110]%N ++ text)
    | _ => None
    end in
  let parts := omap part (seq 0 (length pages)) in
  ∃ full_text,
    pdf_extract_text (Return pages) = Return full_text ∧
    full_text = join [92; 110]%N parts ∧
    (strip full_text = [] ↔
     Forall (λ page, match page with
                     | Return text => strip text = []
                     | Raise _ => True
                     end) pages) ∧
    (strip full_text = [] → full_text = []).
Proof.
  intros part parts.
  assert (Hparts : pdf_text_content 0 pages = parts).
  { rewrite pdf_text_content_by_index. by apply omap_pointwise. }
  destruct (pdf_extract_text_blank_iff pages) as (full_text & Hrun & Hblank).
  exists full_text. split; [done|].
  assert (Hfull : full_text = join [92; 110]%N parts).
  { cbn in Hrun. injection Hrun as <-. by rewrite Hparts. }
  split; [done|]. split; [done|].
  intros Hstrip. apply Hblank in Hstrip.
  apply (pdf_text_content_nil pages 0) in Hstrip.
  rewrite Hparts in Hstrip. by rewrite Hfull, Hstrip.
Qed.

(** X11: [process_document] on an existing PDF none of whose pages
    extracts to a non-blank text returns a failure record: its error is
    the message of line 261, "Nenhum texto extra[i]do do documento" with
    an acute accent on the i (code point 237), its text is empty, it has
    no chunks and its metadata is the caller's. *)
Theorem process_document_pdf_without_text (fuel : nat) (w : World)
    (file_path : Path) (caller : option (gmap str pyval))
    (pages : list (outcome str)) :
  exists_ w file_path = Return true →
  get_processor_for_file w file_path = Some PDFProcessor →
  extract_text w PDFProcessor file_path = pdf_extract_text (Return pages) →
  Forall (λ page, match page with
                  | Return t => strip t = []
                  | Raise _ => True
                  end) pages →
  ∃ r, process_document fuel w file_path caller = Some (Return r) ∧
       success r = false ∧
       error r = Some (lit "Nenhum texto extra" ++ [237%N] ++
                       lit "do do documento") ∧
       text r = [] ∧ chunks r = [] ∧ metadata r = default ∅ caller.
Proof.
  intros Hexists Hproc Hextract Hblank.
  exists (failure_result caller (ValueError msg_no_text)). split.
  - eapply process_document_empty_extraction; [done | done | |].
    + by rewrite Hextract.
    + apply (pdf_text_content_nil pages 0) in Hblank. by rewrite Hblank.
  - cbn. by rewrite or_empty_default.
Qed.

Lemma process_document_pdf_without_text_witness :
  ∃ r, process_document 0 (pdf_world blank_pages) pdf_path None
       = Some (Return r) ∧
       success r = false ∧
       error r = Some (lit "Nenhum texto extra" ++ [237%N] ++
                       lit "do do documento") ∧
       text r = [] ∧ chunks r = [] ∧ metadata r = ∅.
Proof.
  apply (process_document_pdf_without_text 0 (pdf_world blank_pages)
           pdf_path None blank_pages); try by vm_compute.
  repeat constructor.
Defined.

(** The part of a page carries the number of the page in the file, also
    after pages that were left out. *)
Example pdf_page_numbers :
  pdf_extract_text (Return sample_pages)
  = Return (lit "--- P" ++ [225%N] ++ lit "gina 3 ---" ++ line_sep ++ lit "Hi").
Proof. by vm_compute. Qed.

(** The text of a table row is not blank exactly when the row has two
    or more cells or its one cell is not blank. *)
Lemma docx_row_text_nonblank (cells : list str) :
  strip (docx_row_text cells) ≠ [] ↔
  (2 <= length cells)%nat ∨ ∃ cell, cells = [cell] ∧ strip cell ≠ [].
Proof.
  unfold docx_row_text.
  destruct cells as [|c1 [|c2 cells]].
  - cbn. split; [done|]. intros [? | (cell & [=] & _)]. lia.
  - cbn [map join]. rewrite strip_idem. split.
    + intros Hc. right. by exists c1.
    + intros [? | (cell & [= <-] & Hc)]; [cbn in *; lia | done].
  - split; [intros _; left; cbn; lia | intros _].
    cbn [map join]. apply (strip_nonspace _ 124%N); [| done].
    rewrite !elem_of_app. right. left.
    apply list_elem_of_further, list_elem_of_here.
Qed.

Lemma docx_paragraph_parts_filter (paragraphs : list str) :
  docx_paragraph_parts paragraphs
  = filter (λ t, t ≠ []) (strip <$> paragraphs).
Proof.
  induction paragraphs as [|paragraph rest IH]; [done|].
  cbn [docx_paragraph_parts fmap list_fmap]. rewrite filter_cons.
  destruct (strip paragraph) eqn:Hstrip.
  - by rewrite decide_False by (by intros []).
  - rewrite decide_True by done. by rewrite IH.
Qed.

Lemma docx_row_kept_iff (cells : list str) :
  strip (docx_row_text cells) ≠ [] ↔
  (2 <= length cells)%nat ∨ Exists (λ cell, strip cell ≠ []) cells.
Proof.
  rewrite docx_row_text_nonblank. split.
  - intros [Hlen | (cell & -> & Hcell)]; [by left | right].
    by constructor.
  - intros [Hlen | Hex]; [by left |].
    destruct cells as [|c1 [|c2 cells]].
    + by apply Exists_nil in Hex.
    + right. exists c1. split; [done|].
      apply Exists_cons in Hex as [Hc | Hnil]; [done|].
      by apply Exists_nil in Hnil.
    + left. cbn. lia.
Qed.

Lemma docx_row_parts_filter (rows : list (list str)) :
  docx_row_parts rows
  = docx_row_text <$>
    filter (λ cells, (2 <= length cells)%nat ∨
                     Exists (λ cell, strip cell ≠ []) cells) rows.
Proof.
  induction rows as [|cells rest IH]; [done|].
  cbn [docx_row_parts]. rewrite filter_cons.
  pose proof (docx_row_kept_iff cells) as Hkept.
  destruct (strip (docx_row_text cells)) eqn:Hstrip.
  - rewrite decide_False; [done|]. intros Hk. by apply Hkept in Hk.
  - rewrite decide_True by (by apply Hkept). by rewrite fmap_cons, IH.
Qed.

(** X12: what [DOCXProcessor.extract_text] returns for a document that
    opens: the paragraphs, each stripped, without those that strip to
    nothing; then the rows of all tables in order, each the stripped
    texts of its cells joined by " | ", where a row is kept exactly when
    it has two or more cells or a cell that is not blank (the separators
    of a row of several cells make its text non-blank even when every
    cell is blank); all joined by a backslash and the letter n. *)
Theorem docx_extract_text_parts (d : DocxDocument) :
  let paragraphs := filter (λ t, t ≠ []) (strip <$> docx_paragraphs d) in
  let rows :=
    filter (λ cells, (2 <= length cells)%nat ∨
                     Exists (λ cell, strip cell ≠ []) cells)
           (concat (docx_tables d)) in
  docx_extract_text (Return d)
  = Return (join [92; 110]%N
              (paragraphs ++
               ((λ cells, join (lit " | ") (strip <$> cells)) <$> rows))).
Proof.
  intros paragraphs rows. unfold docx_extract_text.
  by rewrite docx_paragraph_parts_filter, docx_row_parts_filter.
Qed.

(** A table of one row with two empty cells gives the line [" | "]. *)
Example docx_blank_row :
  docx_extract_text
    (Return {| docx_paragraphs := [lit " "; lit " Title "];
               docx_tables := [[[lit ""; lit " "]; [lit " "]]] |})
  = Return (lit "Title" ++ line_sep ++ lit " | ").
Proof. by vm_compute. Qed.

End Extractors.

(* ===================================================================== *)
(** ** More on the vector index: ids, what is stored, what is kept *)
(* ===================================================================== *)

Section ChunkIds.

Lemma lit_String (a : ascii) (s : string) :
  lit (String a s) = N_of_ascii a :: lit s.
Proof. reflexivity. Qed.

Lemma uint_digits (d : Decimal.uint) :
  Forall (λ c, (48 <= c <= 57)%N) (lit (NilEmpty.string_of_uint d)).
Proof.
  induction d; cbn [NilEmpty.string_of_uint]; rewrite ?lit_String;
    [by constructor | constructor; [by vm_compute | done] ..].
Qed.

(** The decimal form of a natural number holds digits only. *)
Lemma str_of_nat_digits (i : nat) :
  Forall (λ c, (48 <= c <= 57)%N) (str_of_int (Z.of_nat i)).
Proof.
  unfold str_of_int. destruct (Z.of_nat i) as [|p|p] eqn:Hi; [| | lia].
  - repeat constructor; by vm_compute.
  - apply uint_digits.
Qed.

(** Two splittings of a list at a character that the parts before it do
    not hold are the same splitting. *)
Lemma first_occurrence {A} (u : A) (x y a b : list A) :
  x ++ u :: a = y ++ u :: b → u ∉ x → u ∉ y → x = y ∧ a = b.
Proof.
  revert y. induction x as [|c x IH]; intros [|c' y]; cbn.
  - by intros [= ->].
  - intros [= <- _] _ Hy. exfalso. apply Hy, list_elem_of_here.
  - intros [= -> _] Hx _. exfalso. apply Hx, list_elem_of_here.
  - intros [= <- Heq] Hx Hy.
    destruct (IH y Heq) as [-> ->]; [| | done].
    + intros H. apply Hx. by apply list_elem_of_further.
    + intros H. apply Hy. by apply list_elem_of_further.
Qed.

Lemma last_occurrence {A} (u : A) (x y a b : list A) :
  a ++ u :: x = b ++ u :: y → u ∉ x → u ∉ y → a = b ∧ x = y.
Proof.
  intros Heq Hx Hy. apply (f_equal (@rev A)) in Heq.
  rewrite !rev_app_distr in Heq. cbn in Heq. rewrite <- !app_assoc in Heq.
  cbn in Heq. apply first_occurrence in Heq as [Hxy Hab].
  - split; [by apply rev_inj | by apply rev_inj].
  - intros H. apply Hx. by apply list_elem_of_In, in_rev, list_elem_of_In.
  - intros H. apply Hy. by apply list_elem_of_In, in_rev, list_elem_of_In.
Qed.

Lemma digits_no_underscore (i : nat) : 95%N ∉ str_of_int (Z.of_nat i).
Proof.
  intros Hin. pose proof (str_of_nat_digits i) as Hd.
  rewrite Forall_forall in Hd. specialize (Hd _ Hin). lia.
Qed.

Lemma chunk_id_parts (document_id document_id' : str) (i i' : nat) :
  chunk_id document_id i = chunk_id document_id' i' →
  document_id = document_id' ∧ i = i'.
Proof.
  unfold chunk_id. intros Heq.
  change (lit "_chunk_") with (lit "_chunk" ++ [95%N]) in Heq.
  rewrite <- !app_assoc in Heq. cbn [app] in Heq.
  rewrite !(app_assoc document_id), !(app_assoc document_id') in Heq.
  apply last_occurrence in Heq as [Hdoc Hidx];
    [| apply digits_no_underscore ..].
  apply app_inv_tail in Hdoc.
  split; [done|]. apply str_of_int_inj in Hidx. lia.
Qed.

Lemma imap_by_index {A C} (g : nat → C) (l : list A) : ∀ k,
  imap (λ i _, g (k + i)%nat) l = g <$> seq k (length l).
Proof.
  induction l as [|x l IH]; intros k; [done|].
  cbn [length seq fmap list_fmap]. rewrite imap_cons, Nat.add_0_r.
  f_equal. rewrite <- IH. apply imap_ext. intros i y _. cbn.
  f_equal. lia.
Qed.

(** The ids [add_document] builds for the chunks of one document. *)
Lemma chunk_ids_by_index (document_id : str) (text_chunks : list str) :
  imap (λ i _, chunk_id document_id i) text_chunks
  = chunk_id document_id <$> seq 0 (length text_chunks).
Proof. apply (imap_by_index (chunk_id document_id) text_chunks 0). Qed.

Lemma chunk_ids_NoDup (document_id : str) (text_chunks : list str) :
  NoDup (imap (λ i _, chunk_id document_id i) text_chunks).
Proof.
  rewrite chunk_ids_by_index. apply NoDup_fmap_2_strong; [| apply NoDup_seq].
  intros i j _ _ Hij. by apply chunk_id_parts in Hij as [_ ->].
Qed.

(** X13: a chunk id determines the document id and the chunk index it
    was built from: two chunk ids are equal only for the same document
    id and the same index, whatever the document ids hold. *)
Theorem chunk_id_inj (document_id document_id' : str) (i i' : nat) :
  chunk_id document_id i = chunk_id document_id' i' →
  document_id = document_id' ∧ i = i'.
Proof.
  intros Heq. destruct (chunk_id_parts _ _ _ _ Heq) as [Hdoc Hidx].
  by split.
Qed.

Lemma chunk_id_inj_witness :
  lit "kb_1_ab" = lit "kb_1_ab" ∧ 2%nat = 2%nat.
Proof.
  apply (chunk_id_inj (lit "kb_1_ab") (lit "kb_1_ab") 2 2). reflexivity.
Defined.

End ChunkIds.

Section VectorIndexStored.

Variable B : Chroma.

(** What [get_or_create_collection] does to the service: no records
    that exist change; on success the handle is the collection name, it
    is cached, the records under it are those that were there or none,
    and nothing else moved; on failure nothing is changed. *)
Lemma get_or_create_collection_spec (persona_id : Z)
    (s : VectorStoreService) :
  let n := get_collection_name persona_id in
  let r := get_or_create_collection B persona_id s in
  (∀ m records, records_of s m = Some records →
                records_of r.2 m = Some records) ∧
  match r.1 with
  | Return handle =>
      handle = n ∧ n ∈ collections r.2 ∧
      (∀ records, records_of r.2 n = Some records →
                  records = default [] (records_of s n)) ∧
      (∀ records, records_of r.2 n = Some records →
                  records_of s n = None → create_error B n = None)
  | Raise _ => r.2 = s
  end.
Proof.
  intros n r. subst r. unfold get_or_create_collection. fold n.
  case_bool_decide as Hcached.
  { cbn [fst snd]. split; [done|]. split; [done|]. split; [done|].
    split; [by intros records -> | by intros records ->]. }
  destruct s as [[store|] cache]; cbn [client collections]; [| done].
  destruct (store !! n) as [existing|] eqn:Hstore.
  - cbn [fst snd]. split; [done|]. split; [done|].
    split; [apply elem_of_union_l, elem_of_singleton_2; done|].
    rewrite !records_of_mk, Hstore. split; [by intros ? [= <-] | done].
  - destruct (create_error B n) as [e|] eqn:Hcreate; [done|].
    cbn [fst snd]. split.
    + intros m records. rewrite !records_of_mk. intros Hm.
      rewrite lookup_insert_ne; [done | congruence].
    + split; [done|].
      split; [apply elem_of_union_l, elem_of_singleton_2; done|].
      rewrite !records_of_mk, lookup_insert_eq, Hstore.
      split; [by intros ? [= <-] | done].
Qed.

(** X14: getting the collection of a persona a second time returns the
    same handle and changes nothing, and getting it never changes
    records that exist, in any collection. *)
Theorem get_or_create_collection_idempotent (persona_id : Z)
    (s : VectorStoreService) (handle : str) (s1 : VectorStoreService) :
  get_or_create_collection B persona_id s = (Return handle, s1) →
  get_or_create_collection B persona_id s1 = (Return handle, s1) ∧
  ∀ m records, records_of s m = Some records →
               records_of s1 m = Some records.
Proof.
  intros Hget.
  pose proof (get_or_create_collection_spec persona_id s) as Hspec.
  cbn zeta in Hspec. rewrite Hget in Hspec. cbn [fst snd] in Hspec.
  destruct Hspec as (Hkept & -> & Hcached & _).
  split; [| done].
  unfold get_or_create_collection.
  by rewrite (bool_decide_eq_true_2 _ Hcached).
Qed.

Lemma write_collection_spec (handle : str)
    (f : list Embedding → outcome (list Embedding))
    (s : VectorStoreService) :
  match write_collection handle f s with
  | (Return _, s2) =>
      ∃ before after,
        records_of s handle = Some before ∧ f before = Return after ∧
        records_of s2 handle = Some after ∧
        collections s2 = collections s
  | (Raise _, s2) => s2 = s
  end.
Proof.
  unfold write_collection.
  destruct s as [[store|] cache]; cbn [client collections]; [| done].
  destruct (store !! handle) as [before|] eqn:Hstore; [| done].
  destruct (f before) as [after|] eqn:Hf; [| done].
  exists before, after. rewrite !records_of_mk, lookup_insert_eq. done.
Qed.

Lemma read_collection_spec {A} (handle : str)
    (f : list Embedding → outcome A) (s : VectorStoreService) (a : A) :
  read_collection handle f s = Return a →
  ∃ records, records_of s handle = Some records ∧ f records = Return a.
Proof.
  unfold read_collection. destruct (records_of s handle) as [records|];
    [| done].
  intros Hf. by exists records.
Qed.

(** X15: when [add_document] returns [True], the records of the
    persona's collection are what the backend's [add] gave for the
    records that were there (none, for a collection just created), the
    chunks, one metadata dictionary and one id per chunk; the id of chunk
    [i] is [chunk_id document_id i], and the ids are pairwise distinct. *)
Theorem add_document_stored (persona_id : Z) (document_id : str)
    (text_chunks : list str) (md : gmap str pyval)
    (s s' : VectorStoreService) :
  add_document B persona_id document_id text_chunks md s = (true, s') →
  let n := get_collection_name persona_id in
  let metadatas :=
    imap (λ i _, chunk_metadata md document_id i) text_chunks in
  let ids := imap (λ i _, chunk_id document_id i) text_chunks in
  ∃ after,
    collection_add B (default [] (records_of s n)) text_chunks metadatas ids
    = Return after ∧
    records_of s' n = Some after ∧
    n ∈ collections s' ∧
    NoDup ids ∧
    length ids = length text_chunks ∧
    length metadatas = length text_chunks ∧
    ∀ i, (i < length text_chunks)%nat →
         ids !! i = Some (chunk_id document_id i) ∧
         metadatas !! i = Some (chunk_metadata md document_id i).
Proof.
  intros Hadd n metadatas ids. unfold add_document in Hadd.
  pose proof (get_or_create_collection_spec persona_id s) as Hspec.
  cbn zeta in Hspec. fold n in Hspec.
  destruct (get_or_create_collection B persona_id s) as [[handle|e] s1];
    [| done].
  cbn [fst snd] in Hspec. destruct Hspec as (_ & -> & Hcached & Hrecords & _).
  fold metadatas ids in Hadd.
  pose proof (write_collection_spec n
    (λ records, collection_add B records text_chunks metadatas ids) s1)
    as Hwrite.
  destruct (write_collection n _ s1) as [[[]|e] s2]; [| done].
  injection Hadd as <-.
  destruct Hwrite as (before & after & Hbefore & Hf & Hafter & Hcache).
  exists after. rewrite <- (Hrecords before Hbefore).
  split; [done|]. split; [done|]. split; [by rewrite Hcache|].
  split; [apply chunk_ids_NoDup|].
  subst ids metadatas. rewrite !length_imap.
  split; [done|]. split; [done|].
  intros i Hi. destruct (lookup_lt_is_Some_2 text_chunks i Hi) as [c Hc].
  rewrite !list_lookup_imap, Hc. done.
Qed.

(** X16: the metadata stored with chunk [i] holds the chunk index, the
    document id and the chunk id under their three keys, whatever the
    caller's metadata holds under them, and the caller's value under
    every other key. *)
Theorem chunk_metadata_fields (md : gmap str pyval) (document_id : str)
    (i : nat) :
  let m := chunk_metadata md document_id i in
  m !! lit "chunk_index" = Some (PInt (Z.of_nat i)) ∧
  m !! lit "document_id" = Some (PStr document_id) ∧
  m !! lit "chunk_id" = Some (PStr (chunk_id document_id i)) ∧
  ∀ k, k ∉ [lit "chunk_index"; lit "document_id"; lit "chunk_id"] →
       m !! k = md !! k.
Proof.
  intros m. subst m. unfold chunk_metadata.
  assert (H1 : lit "chunk_id" ≠ lit "document_id") by (by vm_compute).
  assert (H2 : lit "chunk_id" ≠ lit "chunk_index") by (by vm_compute).
  assert (H3 : lit "document_id" ≠ lit "chunk_index") by (by vm_compute).
  split; [by rewrite 2!lookup_insert_ne, lookup_insert_eq by done|].
  split; [by rewrite lookup_insert_ne, lookup_insert_eq by done|].
  split; [by rewrite lookup_insert_eq|].
  intros k Hk. rewrite !not_elem_of_cons in Hk.
  destruct Hk as (? & ? & ? & _).
  by rewrite 3!lookup_insert_ne by done.
Qed.

(** X17: a search never changes records that exist, in any collection,
    and neither do an [add_document] or a [delete_document] that return
    [False]; a [clear_persona_collection] that returns [False] changes
    nothing at all. *)
Theorem failed_operations_keep_records (persona_id : Z)
    (s : VectorStoreService) :
  let kept (s' : VectorStoreService) :=
    ∀ m records, records_of s m = Some records →
                 records_of s' m = Some records in
  (∀ query n_results filter_metadata,
     kept (search_similar_content B persona_id query n_results
             filter_metadata s).2) ∧
  (∀ document_id text_chunks md,
     (add_document B persona_id document_id text_chunks md s).1 = false →
     kept (add_document B persona_id document_id text_chunks md s).2) ∧
  (∀ document_id,
     (delete_document B persona_id document_id s).1 = false →
     kept (delete_document B persona_id document_id s).2) ∧
  ((clear_persona_collection persona_id s).1 = false →
   (clear_persona_collection persona_id s).2 = s).
Proof.
  intros kept. subst kept. cbn beta.
  pose proof (get_or_create_collection_spec persona_id s) as Hspec.
  cbn zeta in Hspec. destruct Hspec as (Hkept & _).
  split; [| split; [| split]].
  - intros query n_results filter_metadata.
    unfold search_similar_content, search_body.
    destruct (get_or_create_collection B persona_id s) as [[handle|e] s1];
      [| done].
    destruct (read_collection handle _ s1) as [results|]; [| done].
    by destruct (documents results) as [[|[|doc row] rows]|];
      [| | destruct (format_results results 0 (doc :: row)) |].
  - intros document_id text_chunks md. unfold add_document.
    destruct (get_or_create_collection B persona_id s) as [[handle|e] s1];
      [| done].
    match goal with
    | |- context [write_collection ?h ?f s1] =>
        pose proof (write_collection_spec h f s1) as Hwrite;
        destruct (write_collection h f s1) as [[[]|e] s2]
    end; [done|]. by subst s2.
  - intros document_id. unfold delete_document.
    destruct (get_or_create_collection B persona_id s) as [[handle|e] s1];
      [| done].
    destruct (read_collection handle _ s1) as [[|i found]|]; [done | | done].
    match goal with
    | |- context [write_collection ?h ?f s1] =>
        pose proof (write_collection_spec h f s1) as Hwrite;
        destruct (write_collection h f s1) as [[[]|e] s2]
    end; [done|]. by subst s2.
  - unfold clear_persona_collection.
    destruct (client s) as [store|]; [| done].
    by destruct (store !! get_collection_name persona_id).
Qed.

(** X18: when [delete_document] returns [True], the backend found a
    non-empty list of ids whose metadata has this document id, and the
    records of the persona's collection are what the backend's [delete]
    of those ids gave. *)
Theorem delete_document_removed (persona_id : Z) (document_id : str)
    (s s' : VectorStoreService) :
  delete_document B persona_id document_id s = (true, s') →
  let n := get_collection_name persona_id in
  let before := default [] (records_of s n) in
  ∃ found after,
    collection_get B before {[ lit "document_id" := PStr document_id ]}
    = Return found ∧
    found ≠ [] ∧
    collection_delete B before found = Return after ∧
    records_of s' n = Some after.
Proof.
  intros Hdel n before. unfold delete_document in Hdel.
  pose proof (get_or_create_collection_spec persona_id s) as Hspec.
  cbn zeta in Hspec. fold n in Hspec.
  destruct (get_or_create_collection B persona_id s) as [[handle|e] s1];
    [| done].
  cbn [fst snd] in Hspec. destruct Hspec as (_ & -> & _ & Hrecords & _).
  destruct (read_collection n _ s1) as [[|i found]|] eqn:Hread;
    [done | | done].
  apply read_collection_spec in Hread as (records & Hrec & Hget).
  pose proof (write_collection_spec n
    (λ records, collection_delete B records (i :: found)) s1) as Hwrite.
  destruct (write_collection n _ s1) as [[[]|e] s2]; [| done].
  injection Hdel as <-.
  destruct Hwrite as (before' & after & Hbefore & Hf & Hafter & _).
  assert (before' = records) as -> by congruence.
  exists (i :: found), after. subst before.
  rewrite <- (Hrecords records Hrec). done.
Qed.


End VectorIndexStored.

Lemma get_or_create_collection_idempotent_witness :
  let s1 := (get_or_create_collection memory_chroma 1 empty_service).2 in
  get_or_create_collection memory_chroma 1 s1
  = (Return (get_collection_name 1), s1) ∧
  records_of s1 (get_collection_name 1) = Some [].
Proof.
  intros s1.
  assert (Hget : get_or_create_collection memory_chroma 1 empty_service
                 = (Return (get_collection_name 1), s1)) by (by vm_compute).
  destruct (get_or_create_collection_idempotent memory_chroma 1 empty_service
              (get_collection_name 1) s1 Hget) as [Hagain _].
  split; [done | by vm_compute].
Defined.

Lemma add_document_stored_witness :
  let s' := (add_document memory_chroma 1 (lit "kb_1_ab")
               [lit "abc"; lit "def"] ∅ empty_service).2 in
  ∃ after, records_of s' (get_collection_name 1) = Some after ∧
           map emb_id after = [lit "kb_1_ab_chunk_0"; lit "kb_1_ab_chunk_1"].
Proof.
  intros s'.
  assert (Hadd : add_document memory_chroma 1 (lit "kb_1_ab")
                   [lit "abc"; lit "def"] ∅ empty_service = (true, s'))
    by (by vm_compute).
  destruct (add_document_stored memory_chroma 1 (lit "kb_1_ab")
              [lit "abc"; lit "def"] ∅ empty_service s' Hadd)
    as (after & Hcall & Hafter & _).
  exists after. split; [done|].
  vm_compute in Hcall. by injection Hcall as <-.
Defined.

Lemma delete_document_removed_witness :
  let s0 := (add_document memory_chroma 1 (lit "kb_1_ab")
               [lit "abc"; lit "def"] ∅ empty_service).2 in
  let s' := (delete_document memory_chroma 1 (lit "kb_1_ab") s0).2 in
  records_of s' (get_collection_name 1) = Some [].
Proof.
  intros s0 s'.
  assert (Hdel : delete_document memory_chroma 1 (lit "kb_1_ab") s0
                 = (true, s')) by (by vm_compute).
  destruct (delete_document_removed memory_chroma 1 (lit "kb_1_ab") s0 s'
              Hdel) as (found & after & Hfound & _ & Hcall & Hafter).
  vm_compute in Hfound. injection Hfound as <-.
  vm_compute in Hcall. injection Hcall as <-.
  exact Hafter.
Defined.

(** The in-memory backend refuses a chunk whose metadata holds [None],
    so [add_document] returns [False] and stores nothing. *)
Example add_document_refuses_none :
  add_document memory_chroma 1 (lit "kb_1_ab") [lit "abc"]
    {[ lit "description" := PNone ]} empty_service
  = (false, (get_or_create_collection memory_chroma 1 empty_service).2).
Proof. by vm_compute. Qed.

(* ===================================================================== *)
(** ** Search results, statistics and the context *)
(* ===================================================================== *)

Section SearchResults.

Variable B : Chroma.

(** The formatting loop, when it ends without an exception: one
    result per document of the row, in order, each with the metadata,
    distance and id found at its own index. *)
Lemma format_results_spec (results : QueryResult) (row : list str) :
  ∀ from similar_docs,
    format_results results from row = Return similar_docs →
    map content similar_docs = row ∧
    ∀ i doc, similar_docs !! i = Some doc →
      field_at (metadatas results) (from + i) ∅ = Return (doc_metadata doc) ∧
      field_at (distances results) (from + i) 0%Q = Return (distance doc) ∧
      field_at (option_map (map (map Some)) (ids results)) (from + i) None
      = Return (id doc).
Proof.
  induction row as [|d row IH]; intros from similar_docs; cbn [format_results].
  - intros [= <-]. split; [done | intros i doc; by rewrite lookup_nil].
  - unfold format_result.
    destruct (field_at (metadatas results) from ∅) as [md|] eqn:Hmd; [| done].
    destruct (field_at (distances results) from 0%Q) as [dist|] eqn:Hdist;
      [| done].
    destruct (field_at (option_map _ (ids results)) from None) as [rid|]
      eqn:Hid; [| done].
    destruct (format_results results (S from) row) as [ds|] eqn:Hrest;
      [| done].
    intros [= <-]. destruct (IH _ _ Hrest) as [Hcontent Hfields].
    split; [cbn; by rewrite Hcontent|].
    intros [|i] doc; cbn.
    + intros [= <-]. cbn. by rewrite Nat.add_0_r.
    + intros Hdoc. specialize (Hfields i doc Hdoc).
      by rewrite Nat.add_succ_r.
Qed.

(** X20: a search that returns results returns the documents of the
    first row of the backend's answer to one query, made on the records
    of the persona's collection with [TOP_K_RETRIEVAL] results when no
    number is given: one result per document, in the order of the row,
    each with the metadata, distance and id the answer holds at the same
    index. *)
Theorem search_similar_content_results (persona_id : Z) (query : str)
    (n_results : option Z) (filter_metadata : option (gmap str pyval))
    (s : VectorStoreService) :
  let similar_docs :=
    (search_similar_content B persona_id query n_results filter_metadata s).1
  in
  similar_docs ≠ [] →
  ∃ results rest,
    collection_query B
      (default [] (records_of s (get_collection_name persona_id))) query
      (default (TOP_K_RETRIEVAL settings) n_results) filter_metadata
    = Return results ∧
    documents results = Some (map content similar_docs :: rest) ∧
    ∀ i doc, similar_docs !! i = Some doc →
      field_at (metadatas results) i ∅ = Return (doc_metadata doc) ∧
      field_at (distances results) i 0%Q = Return (distance doc) ∧
      field_at (option_map (map (map Some)) (ids results)) i None
      = Return (id doc).
Proof.
  intros similar_docs. subst similar_docs.
  unfold search_similar_content, search_body.
  pose proof (get_or_create_collection_spec B persona_id s) as Hspec.
  cbn zeta in Hspec.
  destruct (get_or_create_collection B persona_id s) as [[handle|e] s1];
    [| done].
  cbn [fst snd] in Hspec. destruct Hspec as (_ & -> & _ & Hrecords & _).
  destruct (read_collection _ _ s1) as [results|] eqn:Hread; [| done].
  apply read_collection_spec in Hread as (records & Hrec & Hquery).
  rewrite (Hrecords records Hrec) in Hquery.
  destruct (documents results) as [[|[|doc row] rest]|] eqn:Hdocs;
    [done | done | | done].
  destruct (format_results results 0 (doc :: row)) as [ds|] eqn:Hformat;
    [| done].
  cbn [fst]. intros _.
  destruct (format_results_spec _ _ _ _ Hformat) as [Hcontent Hfields].
  exists results, rest. rewrite Hcontent. done.
Qed.

Lemma remove_dups_length_le {A} `{EqDecision A} (l : list A) :
  (length (remove_dups l) <= length l)%nat.
Proof.
  induction l as [|x l IH]; cbn; [done|].
  destruct (decide_rel elem_of x l); cbn; lia.
Qed.

Lemma omap_length_le {A C} (f : A → option C) (l : list A) :
  (length (omap f l) <= length l)%nat.
Proof.
  induction l as [|x l IH]; cbn; [done|]. destruct (f x); cbn; lia.
Qed.

(** X21: when [get_collection_stats] returns statistics, the collection
    name is the persona's, the total is the backend's count on the
    records of the persona's collection, and the estimate of documents
    is the number of distinct values (as members of a Python set) that
    the metadatas of the sample [collection.get(limit=10)] hold under
    ['document_id'].  So the estimate is at most the number of sampled
    metadatas, however many documents the collection holds: at most 10
    when the backend honours the limit. *)
Theorem get_collection_stats_estimate
    (collection_count : list Embedding → outcome Z)
    (collection_sample : list Embedding → Z →
                         outcome (option (list (gmap str pyval))))
    (persona_id : Z) (s : VectorStoreService)
    (total estimated : Z) (collection_name : str) (pid : Z) :
  (get_collection_stats B collection_count collection_sample persona_id s).1
  = Stats total estimated collection_name pid →
  let records :=
    default [] (records_of s (get_collection_name persona_id)) in
  collection_name = get_collection_name persona_id ∧ pid = persona_id ∧
  collection_count records = Return total ∧
  ∃ (sample_results : option (list (gmap str pyval))) (unique : list pyval),
    collection_sample records 10 = Return sample_results ∧
    NoDup unique ∧
    (∀ v, v ∈ unique ↔
          ∃ md v0, md ∈ default [] sample_results ∧
                   md !! lit "document_id" = Some v0 ∧ v = py_key v0) ∧
    estimated = len unique ∧
    0 <= estimated <= len (default [] sample_results) ∧
    (len (default [] sample_results) <= 10 → estimated <= 10).
Proof.
  unfold get_collection_stats.
  pose proof (get_or_create_collection_spec B persona_id s) as Hspec.
  cbn zeta in Hspec.
  destruct (get_or_create_collection B persona_id s) as [[handle|e] s1];
    [| done].
  cbn [fst snd] in Hspec. destruct Hspec as (_ & -> & _ & Hrecords & _).
  destruct (read_collection (get_collection_name persona_id)
              collection_count s1) as [count_result|] eqn:Hcount; [| done].
  destruct (read_collection (get_collection_name persona_id)
              (λ records, collection_sample records 10) s1)
    as [sample_results|] eqn:Hsample; [| done].
  cbn [fst]. intros [= <- <- <- <-]. cbn zeta.
  apply read_collection_spec in Hcount as (records & Hrec & Hcount).
  apply read_collection_spec in Hsample as (records' & Hrec' & Hsample).
  assert (records' = records) as -> by congruence.
  rewrite <- (Hrecords records Hrec).
  split; [done|]. split; [done|]. split; [done|].
  exists sample_results, (remove_dups (sampled_document_ids sample_results)).
  split; [done|]. split; [apply NoDup_remove_dups|].
  assert (Hle : (length (remove_dups (sampled_document_ids sample_results))
                 <= length (default [] sample_results))%nat).
  { etrans; [apply remove_dups_length_le|].
    destruct sample_results as [sample|]; cbn; [| done].
    apply omap_length_le. }
  split; [| unfold len; split; [done | lia]].
  intros v. rewrite elem_of_remove_dups.
  destruct sample_results as [sample|]; cbn [sampled_document_ids default].
  - rewrite list_elem_of_omap. split.
    + intros (md & Hmd & Hv). apply fmap_Some in Hv as (v0 & Hv0 & ->).
      by exists md, v0.
    + intros (md & v0 & Hmd & Hv0 & ->). exists md. split; [done|].
      by rewrite Hv0.
  - split; [intros Hv; by apply elem_of_nil in Hv |].
    intros (md & v0 & Hmd & _). by apply elem_of_nil in Hmd.
Qed.

End SearchResults.

Lemma search_similar_content_results_witness :
  let s := (add_document memory_chroma 1 (lit "kb_1_ab")
              [lit "abc"; lit "def"] ∅ empty_service).2 in
  let similar_docs :=
    (search_similar_content memory_chroma 1 (lit "x") None None s).1 in
  map content similar_docs = [lit "abc"; lit "def"] ∧
  ∃ results rest,
    collection_query memory_chroma
      (default [] (records_of s (get_collection_name 1))) (lit "x")
      (default (TOP_K_RETRIEVAL settings) None) None
    = Return results ∧
    documents results = Some (map content similar_docs :: rest) ∧
    ∀ i doc, similar_docs !! i = Some doc →
      field_at (metadatas results) i ∅ = Return (doc_metadata doc) ∧
      field_at (distances results) i 0%Q = Return (distance doc) ∧
      field_at (option_map (map (map Some)) (ids results)) i None
      = Return (id doc).
Proof.
  intros s similar_docs. split; [by vm_compute|].
  apply (search_similar_content_results memory_chroma 1 (lit "x") None None
           s).
  by vm_compute.
Defined.


(** X22: the context is the empty string exactly when the search
    returns no result; otherwise it begins with the heading of line 254,
    "CONTEXTO DA BASE DE CONHECIMENTO:". *)
Theorem get_relevant_context_empty_iff (B : Chroma) (persona_id : Z)
    (query : str) (s : VectorStoreService) :
  let similar_docs :=
    (search_similar_content B persona_id query
       (Some (TOP_K_RETRIEVAL settings)) None s).1 in
  let context := (_get_relevant_context B persona_id query s).1 in
  (context = [] ↔ similar_docs = []) ∧
  (similar_docs ≠ [] →
   ∃ tail, context = lit "CONTEXTO DA BASE DE CONHECIMENTO:" ++ tail).
Proof.
  intros similar_docs context. subst similar_docs context.
  unfold _get_relevant_context.
  destruct (search_similar_content B persona_id query _ None s)
    as [[|doc docs] s1]; cbn [fst]; [done|].
  rewrite fold_left_add_context_part. cbn [app].
  destruct (join_cons_head context_sep context_header
              (concat ((λ e, [doc_header e.1 e.2; take 500 (content e.2);
                              context_rule])
                       <$> enumerate 1 (py_prefix (doc :: docs) 3))))
    as (tail & ->).
  split; [split; [by vm_compute | done] | intros _; by exists tail].
Qed.

(* ===================================================================== *)
(** ** The background ingestion of an uploaded document *)
(* ===================================================================== *)

Section Ingest.

Variable B : Chroma.
Variable w : World.

(** X23: for a row that exists and with enough fuel,
    [process_document_async] ends and leaves the row either completed,
    with no error and with the vector store id it drew, which happens
    exactly when [process_document] succeeded and [add_document] returned
    [True], or failed, with an error message and its vector store id
    unchanged; the title and the persona of the row and every other row
    are as before. *)
Theorem process_document_async_status (token : str) (kb_id : Z)
    (file_path : Path) (db : gmap Z KnowledgeBase) (vs : VectorStoreService)
    (kb : KnowledgeBase) :
  db !! kb_id = Some kb →
  ∃ n db' vs' kb', ∀ fuel, (n <= fuel)%nat →
    process_document_async fuel w B token kb_id file_path db vs
    = Some (db', vs') ∧
    db' = <[kb_id := kb']> db ∧
    kb_title kb' = kb_title kb ∧
    kb_persona_id kb' = kb_persona_id kb ∧
    ((kb_processing_status kb' = COMPLETED ∧
      kb_processing_error kb' = None ∧
      kb_vector_store_id kb' = Some (make_vector_store_id kb_id token) ∧
      ∃ result,
        process_document fuel w file_path (Some (ingestion_metadata kb_id kb))
        = Some (Return result) ∧
        success result = true ∧
        add_document B (kb_persona_id kb) (make_vector_store_id kb_id token)
          (chunks result) (vector_metadata kb_id kb (metadata result)) vs
        = (true, vs')) ∨
     (kb_processing_status kb' = FAILED ∧
      is_Some (kb_processing_error kb') ∧
      kb_vector_store_id kb' = kb_vector_store_id kb ∧
      ∀ result,
        process_document fuel w file_path (Some (ingestion_metadata kb_id kb))
        = Some (Return result) →
        success result = true →
        (add_document B (kb_persona_id kb) (make_vector_store_id kb_id token)
           (chunks result) (vector_metadata kb_id kb (metadata result)) vs).1
        = false)).
Proof.
  intros Hkb.
  destruct (process_body_ends w file_path
              (Some (ingestion_metadata kb_id kb))) as (o & n & Hn).
  assert (Hrun : ∃ result, ∀ fuel, (n <= fuel)%nat →
            process_document fuel w file_path
              (Some (ingestion_metadata kb_id kb)) = Some (Return result)).
  { destruct o as [r|e].
    - exists r. intros fuel Hfuel. unfold process_document.
      by rewrite (Hn fuel Hfuel).
    - eexists. intros fuel Hfuel. unfold process_document.
      by rewrite (Hn fuel Hfuel). }
  destruct Hrun as (result & Hrun).
  destruct (success result) eqn:Hsuccess.
  - destruct (add_document B (kb_persona_id kb)
                (make_vector_store_id kb_id token) (chunks result)
                (vector_metadata kb_id kb (metadata result)) vs)
      as [[|] vs'] eqn:Hadd.
    + eexists n, _, vs', _. intros fuel Hfuel.
      unfold process_document_async.
      rewrite Hkb, (Hrun fuel Hfuel), Hsuccess. cbn [negb]. rewrite Hadd.
      split; [done|]. split; [done|]. split; [done|]. split; [done|].
      left. split; [done|]. split; [done|]. split; [done|].
      by exists result.
    + eexists n, _, vs', _. intros fuel Hfuel.
      unfold process_document_async.
      rewrite Hkb, (Hrun fuel Hfuel), Hsuccess. cbn [negb]. rewrite Hadd.
      split; [done|]. split; [done|]. split; [done|]. split; [done|].
      right. split; [done|]. split; [by eexists|]. split; [done|].
      intros result' [= <-] _. by rewrite Hadd.
  - eexists n, _, vs, _. intros fuel Hfuel.
    unfold process_document_async.
    rewrite Hkb, (Hrun fuel Hfuel), Hsuccess. cbn [negb].
    split; [done|]. split; [done|]. split; [done|]. split; [done|].
    right. split; [done|]. split; [by eexists|]. split; [done|].
    intros result' [= <-]. congruence.
Qed.

End Ingest.

Lemma process_document_async_status_witness :
  ∃ n, ∀ fuel, (n <= fuel)%nat →
    is_Some (process_document_async fuel
               (world_of [txt_path] (lit "hello world")) memory_chroma
               (lit "ab12cd34") 1 txt_path {[ 1 := sample_row ]}
               empty_service).
Proof.
  destruct (process_document_async_status memory_chroma
              (world_of [txt_path] (lit "hello world")) (lit "ab12cd34") 1
              txt_path {[ 1 := sample_row ]} empty_service sample_row)
    as (n & db' & vs' & kb' & Hn); [apply lookup_singleton_eq|].
  exists n. intros fuel Hfuel. destruct (Hn fuel Hfuel) as (-> & _).
  by eexists.
Defined.


Lemma get_collection_stats_estimate_witness :
  let s := (add_document memory_chroma 1 (lit "kb_1_ab")
              [lit "abc"; lit "def"] ∅ empty_service).2 in
  let collection_count := λ records : list Embedding, Return (len records) in
  let collection_sample := λ (records : list Embedding) (limit : Z),
    Return (Some (take (Z.to_nat limit) (map emb_metadata records))) in
  ∃ (sample_results : option (list (gmap str pyval))) (unique : list pyval),
    collection_sample (default [] (records_of s (get_collection_name 1))) 10
    = Return sample_results ∧
    NoDup unique ∧
    (∀ v, v ∈ unique ↔
          ∃ md v0, md ∈ default [] sample_results ∧
                   md !! lit "document_id" = Some v0 ∧ v = py_key v0) ∧
    1 = len unique ∧
    0 <= 1 <= len (default [] sample_results) ∧
    (len (default [] sample_results) <= 10 → 1 <= 10).
Proof.
  intros s collection_count collection_sample.
  apply (get_collection_stats_estimate memory_chroma collection_count
           collection_sample 1 s 2 1 (get_collection_name 1) 1).
  by vm_compute.
Defined.

(* ===================================================================== *)
(** ** The ingestion under the [Path] of [pathlib] *)
(* ===================================================================== *)

Section IngestionPathlib.

Variable w : World.
Hypothesis Hpath : pathlib w.

(** The body of the [try] never gets to its [return]. *)
Lemma process_body_pathlib (fuel : nat) (file_path : Path)
    (caller : option (gmap str pyval)) (r : ProcessResult) :
  process_body fuel w file_path caller ≠ Some (Return r).
Proof.
  unfold process_body.
  destruct (exists_ w file_path) as [[|]|]; cbn; [| done | done].
  destruct (get_processor_for_file w file_path) as [processor|]; [| done].
  destruct (extract_text w processor file_path) as [extracted|]; cbn;
    [| done].
  destruct (strip extracted); [done|].
  destruct (chunk_text fuel extracted None None) as [[out|]|]; cbn;
    [| done | done].
  destruct (st_size w file_path) as [file_size|]; cbn; [| done].
  by rewrite (Hpath file_path).
Qed.

(** X25: under the [Path] of [pathlib], no run of [process_document] is
    successful, whatever the file holds: every record it returns has
    [success = False], carries an error message, and has no text and no
    chunks. *)
Theorem process_document_never_succeeds (fuel : nat) (file_path : Path)
    (caller : option (gmap str pyval)) (r : ProcessResult) :
  process_document fuel w file_path caller = Some (Return r) →
  success r = false ∧ is_Some (error r) ∧ text r = [] ∧ chunks r = [].
Proof.
  intros Hrun.
  destruct (process_document_cases _ _ _ _ _ Hrun)
    as [Hbody | (e & _ & ->)].
  - by apply process_body_pathlib in Hbody.
  - cbn. split; [done|]. split; [by eexists | done].
Qed.

Variable B : Chroma.

(** X24: under the [Path] of [pathlib], [process_document_async] never
    completes a row.  For a row that exists and with enough fuel it
    ends, marks the row failed with an error message, leaves the word
    count, the chunk count and the vector store id of the row as they
    were, and does not touch the vector store: [add_document] is never
    called. *)
Theorem process_document_async_never_completes (token : str) (kb_id : Z)
    (file_path : Path) (db : gmap Z KnowledgeBase) (vs : VectorStoreService)
    (kb : KnowledgeBase) :
  db !! kb_id = Some kb →
  ∃ n kb', ∀ fuel, (n <= fuel)%nat →
    process_document_async fuel w B token kb_id file_path db vs
    = Some (<[kb_id := kb']> db, vs) ∧
    kb_processing_status kb' = FAILED ∧
    is_Some (kb_processing_error kb') ∧
    kb_vector_store_id kb' = kb_vector_store_id kb ∧
    kb_word_count kb' = kb_word_count kb ∧
    kb_chunk_count kb' = kb_chunk_count kb ∧
    kb_title kb' = kb_title kb ∧
    kb_persona_id kb' = kb_persona_id kb.
Proof.
  intros Hkb.
  destruct (process_body_ends w file_path
              (Some (ingestion_metadata kb_id kb))) as (o & n & Hn).
  destruct o as [r|e].
  { by destruct (process_body_pathlib n file_path
                   (Some (ingestion_metadata kb_id kb)) r (Hn n (le_n n))). }
  exists n, (set_failed kb (exn_msg e)). intros fuel Hfuel.
  unfold process_document_async, process_document.
  rewrite Hkb, (Hn fuel Hfuel). cbn.
  split; [done|]. split; [done|]. split; [by eexists | done].
Qed.

End IngestionPathlib.

Lemma process_document_never_succeeds_witness :
  let w := world_of [txt_path] (lit "hello world") in
  ∃ r, process_document 20 w txt_path None = Some (Return r) ∧
       success r = false ∧ is_Some (error r) ∧ text r = [] ∧ chunks r = [].
Proof.
  intros w.
  destruct (process_document 20 w txt_path None) as [[r|]|] eqn:Hrun;
    [| by vm_compute in Hrun | by vm_compute in Hrun].
  exists r. split; [done|].
  by apply (process_document_never_succeeds w (λ _, eq_refl) 20 txt_path
              None r).
Defined.

Lemma process_document_async_never_completes_witness :
  ∃ n kb', ∀ fuel, (n <= fuel)%nat →
    process_document_async fuel (world_of [txt_path] (lit "hello world"))
      memory_chroma (lit "ab12cd34") 1 txt_path {[ 1 := sample_row ]}
      empty_service
    = Some (<[1 := kb']> {[ 1 := sample_row ]}, empty_service) ∧
    kb_processing_status kb' = FAILED.
Proof.
  destruct (process_document_async_never_completes
              (world_of [txt_path] (lit "hello world")) (λ _, eq_refl)
              memory_chroma (lit "ab12cd34") 1 txt_path {[ 1 := sample_row ]}
              empty_service sample_row (lookup_singleton_eq _ _))
    as (n & kb' & Hn).
  exists n, kb'. intros fuel Hfuel.
  destruct (Hn fuel Hfuel) as (Hrun & Hstatus & _). done.
Defined.

(* ===================================================================== *)
(** ** Where the chunks lie in the text *)
(* ===================================================================== *)

Section ChunkerKeeps.

(** The character at a position inside [a, b) is in [s[a:b]], at that
    position less [a]. *)
Lemma py_slice_lookup {A} (s : list A) (a b : Z) (p : nat) (c : A) :
  0 <= a → a <= Z.of_nat p < b →
  s !! p = Some c →
  py_slice s a b !! (p - Z.to_nat a)%nat = Some c.
Proof.
  intros Ha Hp Hc.
  assert (Hlen : Z.of_nat p < len s).
  { apply lookup_lt_Some in Hc. unfold len. lia. }
  unfold py_slice, slice_bound.
  destruct (Z.ltb_spec a 0), (Z.ltb_spec b 0); try lia.
  rewrite lookup_take_lt by lia. rewrite lookup_drop.
  by replace (Z.to_nat (Z.min a (len s)) + (p - Z.to_nat a))%nat
    with p by lia.
Qed.

(** [(x + y + z)[len(x) : len(x) + len(y)]] is [y]. *)
Lemma py_slice_app_middle {A} (x y z : list A) :
  py_slice (x ++ y ++ z) (len x) (len x + len y) = y.
Proof.
  unfold py_slice, slice_bound, len. rewrite !length_app.
  destruct (Z.ltb_spec (Z.of_nat (length x)) 0); [lia|].
  destruct (Z.ltb_spec (Z.of_nat (length x) + Z.of_nat (length y)) 0);
    [lia|].
  replace (Z.to_nat (Z.min (Z.of_nat (length x)) _)) with (length x) by lia.
  replace (Z.to_nat (Z.min (Z.of_nat (length x) + Z.of_nat (length y)) _
                     - Z.min (Z.of_nat (length x)) _))
    with (length y) by lia.
  by rewrite drop_app_length, take_app_length.
Qed.

(** The stripped window [text[a:b]] lies in the text at [a] plus the
    number of characters stripped on the left, and every character of
    the window that is not whitespace lies inside it. *)
Lemma window_piece (text : str) (a b : Z) :
  0 <= a →
  ∃ o, 0 <= o ∧
       (strip (py_slice text a b) ≠ [] →
        py_slice text o (o + len (strip (py_slice text a b)))
        = strip (py_slice text a b)) ∧
       ∀ (p : nat) c, a <= Z.of_nat p < b → text !! p = Some c →
                      isspace c = false →
                      o <= Z.of_nat p < o + len (strip (py_slice text a b)).
Proof.
  intros Ha. remember (strip (py_slice text a b)) as kept eqn:Hkept.
  destruct (strip_split (py_slice text a b)) as (pre & suf & Hs & Hpre & Hsuf).
  rewrite <- Hkept in Hs.
  exists (a + len pre). split; [unfold len; lia|]. split.
  - intros Hne.
    assert (Ha' : a < len text).
    { destruct (Z.lt_ge_cases a (len text)) as [|Hge]; [done|].
      exfalso. apply Hne. rewrite Hkept.
      replace (py_slice text a b) with (@nil N); [done|].
      unfold py_slice, slice_bound.
      destruct (Z.ltb_spec a 0); [lia|].
      rewrite drop_ge by (unfold len in *; lia). by rewrite take_nil. }
    assert (Htext : ∃ suf0, text = take (Z.to_nat a) text ++
                                   py_slice text a b ++ suf0).
    { unfold py_slice, slice_bound.
      destruct (Z.ltb_spec a 0); [lia|].
      replace (Z.to_nat (Z.min a (len text))) with (Z.to_nat a) by lia.
      eexists. by rewrite take_drop, take_drop. }
    destruct Htext as (suf0 & Htext). rewrite Hs in Htext.
    assert (Hocc : text = (take (Z.to_nat a) text ++ pre) ++ kept ++
                          (suf ++ suf0)).
    { rewrite Htext at 1. by rewrite <- !app_assoc. }
    assert (Hlen : a + len pre = len (take (Z.to_nat a) text ++ pre)).
    { unfold len in *. rewrite length_app, length_take. lia. }
    pose proof (py_slice_app_middle (take (Z.to_nat a) text ++ pre) kept
                  (suf ++ suf0)) as Hmid.
    rewrite <- Hocc in Hmid. by rewrite Hlen.
  - intros p c Hp Hc Hns.
    pose proof (py_slice_lookup text a b p c Ha Hp Hc) as Hin.
    rewrite Hs in Hin. rewrite Forall_lookup in Hpre, Hsuf.
    set (i := (p - Z.to_nat a)%nat) in *.
    destruct (Nat.lt_ge_cases i (length pre)) as [Hlt | Hge].
    { rewrite lookup_app_l in Hin by done. specialize (Hpre _ _ Hin).
      congruence. }
    rewrite lookup_app_r in Hin by done.
    destruct (Nat.lt_ge_cases (i - length pre) (length kept))
      as [Hk | Hout].
    { unfold len. subst i. lia. }
    rewrite lookup_app_r in Hin by done. specialize (Hsuf _ _ Hin).
    congruence.
Qed.

(** The chunks of a list of windows, each with the offset it lies at. *)
Lemma window_chunks_pieces (text : str) (windows : list (Z * Z)) :
  Forall (λ w, 0 <= w.1) windows →
  ∃ pieces : list (Z * str),
    window_chunks text windows = pieces.*2 ∧
    Forall (λ piece, 0 <= piece.1 ∧
                     py_slice text piece.1 (piece.1 + len piece.2) = piece.2)
           pieces ∧
    ∀ w (p : nat) c, w ∈ windows → w.1 <= Z.of_nat p < w.2 →
                     text !! p = Some c → isspace c = false →
                     ∃ piece, piece ∈ pieces ∧
                              piece.1 <= Z.of_nat p < piece.1 + len piece.2.
Proof.
  induction 1 as [|[a b] windows Ha _ IH].
  { exists []. split; [done|]. split; [done|].
    intros w p c Hw. by apply elem_of_nil in Hw. }
  destruct IH as (pieces & Hout & Hocc & Hcover). cbn [fst] in Ha.
  destruct (window_piece text a b Ha) as (o & Ho & Hat & Hin).
  rewrite window_chunks_cons.
  destruct (strip (py_slice text a b)) as [|c0 kept] eqn:Hstrip.
  - exists pieces. split; [done|]. split; [done|].
    intros w p c Hw Hp Hc Hns. apply elem_of_cons in Hw as [-> | Hw].
    + specialize (Hin p c Hp Hc Hns). unfold len in Hin. cbn in Hin. lia.
    + by apply (Hcover w p c).
  - exists ((o, c0 :: kept) :: pieces). split; [by rewrite Hout|].
    split; [constructor; [split; [done | by apply Hat] | done]|].
    intros w p c Hw Hp Hc Hns. apply elem_of_cons in Hw as [-> | Hw].
    + exists (o, c0 :: kept). split; [apply list_elem_of_here|].
      by apply (Hin p c).
    + destruct (Hcover w p c Hw Hp Hc Hns) as (piece & Hpiece & Hpos).
      exists piece. split; [by apply list_elem_of_further | done].
Qed.

(** A text that is not blank has a character that is not whitespace. *)
Lemma nonblank_has_nonspace (s : str) :
  strip s ≠ [] → ∃ (p : nat) c, s !! p = Some c ∧ isspace c = false.
Proof.
  intros Hne. destruct (strip s) as [|c t] eqn:Hs; [done|].
  assert (Hin : c ∈ s).
  { destruct (strip_split s) as (pre & suf & Heq & _).
    rewrite Heq, Hs. rewrite elem_of_app. right. apply list_elem_of_here. }
  apply list_elem_of_lookup in Hin as (p & Hp).
  exists p, c. split; [done | by apply (strip_head s c t)].
Qed.

(** X26: under the conditions that make the loop end (a chunk size of
    at least 1 and an overlap below it and below
    [max(chunk_size - 100, 0) + 2]), every chunk lies in the text at an
    offset of its own, [text[o : o + len(chunk)]] being the chunk, and
    these occurrences cover every position of the text that holds a
    character that is not whitespace: only whitespace is lost.  So a text
    that is not blank never gives an empty list of chunks. *)
Theorem chunk_text_keeps_nonspace (fuel : nat) (text : str)
    (chunk_size overlap : Z) (out : list str) :
  1 <= chunk_size → overlap < chunk_size →
  overlap < Z.max (chunk_size - 100) 0 + 2 →
  chunk_text fuel text (Some chunk_size) (Some overlap) = Some (Return out) →
  (∃ pieces : list (Z * str),
     out = pieces.*2 ∧
     Forall (λ piece, 0 <= piece.1 ∧
                      py_slice text piece.1 (piece.1 + len piece.2) = piece.2)
            pieces ∧
     ∀ (p : nat) c, text !! p = Some c → isspace c = false →
                    ∃ piece, piece ∈ pieces ∧
                             piece.1 <= Z.of_nat p < piece.1 + len piece.2) ∧
  (strip text ≠ [] → out ≠ []).
Proof.
  intros Hc Hov Hcut Hrun.
  assert (Hpieces : ∃ pieces : list (Z * str),
     out = pieces.*2 ∧
     Forall (λ piece, 0 <= piece.1 ∧
                      py_slice text piece.1 (piece.1 + len piece.2) = piece.2)
            pieces ∧
     ∀ (p : nat) c, text !! p = Some c → isspace c = false →
                    ∃ piece, piece ∈ pieces ∧
                             piece.1 <= Z.of_nat p < piece.1 + len piece.2).
  { revert Hrun. rewrite chunk_text_given.
    destruct (len text <=? chunk_size).
    - intros [= <-]. exists [(0, text)]. split; [done|]. split.
      + constructor; [| done]. split; [done|]. cbn [fst snd].
        pose proof (py_slice_app_middle [] text []) as Hmid.
        by rewrite app_nil_r in Hmid.
      + intros p c Hp _. exists (0, text).
        split; [apply list_elem_of_here|]. cbn [fst snd].
        apply lookup_lt_Some in Hp. unfold len. lia.
    - intros Hrun.
      destruct (chunk_loop_windows text chunk_size overlap Hc Hov Hcut
                  fuel 0 [] out) as (windows & -> & Hok & Hcover);
        [lia | done |].
      destruct (window_chunks_pieces text windows)
        as (pieces & Hout & Hocc & Hin).
      { eapply Forall_impl; [exact Hok|]. by intros w (? & _). }
      exists pieces. split; [done|]. split; [done|].
      intros p c Hp Hns.
      destruct (Hcover (Z.of_nat p)) as (w & Hw & Hpw).
      { apply lookup_lt_Some in Hp. unfold len. lia. }
      by apply (Hin w p c). }
  split; [done|].
  intros Hne ->. destruct Hpieces as (pieces & Hout & _ & Hcover).
  destruct (nonblank_has_nonspace _ Hne) as (p & c & Hp & Hns).
  destruct (Hcover p c Hp Hns) as (piece & Hpiece & _).
  destruct pieces; [by apply elem_of_nil in Hpiece | done].
Qed.

End ChunkerKeeps.

Lemma chunk_text_keeps_nonspace_witness :
  (∃ pieces : list (Z * str),
     [lit "One."; lit "Two"] = pieces.*2 ∧
     Forall (λ piece, 0 <= piece.1 ∧
                      py_slice (lit "One.  Two ") piece.1
                        (piece.1 + len piece.2) = piece.2)
            pieces ∧
     ∀ (p : nat) c, lit "One.  Two " !! p = Some c → isspace c = false →
                    ∃ piece, piece ∈ pieces ∧
                             piece.1 <= Z.of_nat p < piece.1 + len piece.2) ∧
  (strip (lit "One.  Two ") ≠ [] → [lit "One."; lit "Two"] ≠ []).
Proof.
  apply (chunk_text_keeps_nonspace 3 (lit "One.  Two ") 6 0);
    [lia | lia | lia | by vm_compute].
Defined.

(* ===================================================================== *)
(** ** The service before [initialize] *)
(* ===================================================================== *)

Section Uninitialised.

Variable B : Chroma.

(** X28: while the client is [None] and no handle is cached, which is
    the state [__init__] leaves, no operation raises and none changes the
    service: a search returns no result, [add_document],
    [delete_document] and [clear_persona_collection] return [False],
    [get_collection_stats] returns the error dictionary, and the context
    of a prompt is the empty string. *)
Theorem uninitialised_service_fails (persona_id : Z)
    (s : VectorStoreService) :
  client s = None → collections s = ∅ →
  (∀ query n_results filter_metadata,
     search_similar_content B persona_id query n_results filter_metadata s
     = ([], s)) ∧
  (∀ document_id text_chunks md,
     add_document B persona_id document_id text_chunks md s = (false, s)) ∧
  (∀ document_id, delete_document B persona_id document_id s = (false, s)) ∧
  clear_persona_collection persona_id s = (false, s) ∧
  (∀ collection_count collection_sample,
     get_collection_stats B collection_count collection_sample persona_id s
     = (StatsError (exn_msg AttributeError), s)) ∧
  (∀ query, _get_relevant_context B persona_id query s = ([], s)).
Proof.
  intros Hclient Hcache.
  assert (Hget : get_or_create_collection B persona_id s
                 = (Raise AttributeError, s)).
  { unfold get_or_create_collection. rewrite Hcache, Hclient.
    by rewrite bool_decide_eq_false_2 by apply not_elem_of_empty. }
  assert (Hsearch : ∀ query n_results filter_metadata,
            search_similar_content B persona_id query n_results
              filter_metadata s = ([], s)).
  { intros. unfold search_similar_content, search_body. by rewrite Hget. }
  repeat split.
  - done.
  - intros. unfold add_document. by rewrite Hget.
  - intros. unfold delete_document. by rewrite Hget.
  - unfold clear_persona_collection. by rewrite Hclient.
  - intros. unfold get_collection_stats. by rewrite Hget.
  - intros. unfold _get_relevant_context. by rewrite Hsearch.
Qed.

End Uninitialised.

Lemma uninitialised_service_fails_witness :
  add_document memory_chroma 1 (lit "kb_1_ab") [lit "abc"] ∅ new_service
  = (false, new_service) ∧
  _get_relevant_context memory_chroma 1 (lit "abc") new_service
  = ([], new_service).
Proof.
  destruct (uninitialised_service_fails memory_chroma 1 new_service
              eq_refl eq_refl) as (_ & Hadd & _ & _ & _ & Hcontext).
  split; [apply Hadd | apply Hcontext].
Defined.
